(** * The agent pipeline of MCPhelper: executor, summarizer, plan validator,
      orchestrator and the Gemini retry loop, embedded in Rocq.

    Python values that flow through the pipeline come from [json.loads] or
    from the model backend, so they are modelled as JSON values.  Effects
    (model calls, planner calls, tool invocations, sleeps) are recorded in a
    trace threaded by a small state-and-exception monad; Python exceptions
    are values of [exn], all of which are subclasses of [Exception]. *)

From Stdlib Require Import String Ascii List Bool Arith Lia.
Import ListNotations.
Local Open Scope string_scope.
Set Warnings "-register-all".

(* ------------------------------------------------------------------ *)
(** ** Text helpers, modelled after Python's [str] methods *)

Definition dq : string := String (ascii_of_nat 34) EmptyString.
Definition nl : string := String (ascii_of_nat 10) EmptyString.

(** [sub in s] *)
Fixpoint contains (sub s : string) : bool :=
  String.prefix sub s ||
  match s with
  | EmptyString => false
  | String _ r => contains sub r
  end.

Fixpoint drop (n : nat) (s : string) : string :=
  match n, s with
  | 0, _ => s
  | S n', String _ r => drop n' r
  | S _, EmptyString => EmptyString
  end.

Fixpoint replace_fuel (fuel : nat) (old new s : string) : string :=
  match fuel with
  | 0 => s
  | S f =>
      match s with
      | EmptyString => EmptyString
      | String c r =>
          if String.prefix old s
          then new ++ replace_fuel f old new (drop (String.length old) s)
          else String c (replace_fuel f old new r)
      end
  end.

Fixpoint interleave (new s : string) : string :=
  match s with
  | EmptyString => new
  | String c r => new ++ String c (interleave new r)
  end.

(** [s.replace(old, new)]: every non-overlapping occurrence, left to right. *)
Definition py_replace (s old new : string) : string :=
  if String.eqb old "" then interleave new s
  else replace_fuel (String.length s) old new s.

(** [s.startswith(p)] *)
Definition startswith (s p : string) : bool := String.prefix p s.

(** [s[:n]] *)
Definition take (n : nat) (s : string) : string := substring 0 n s.

(** Characters for which [str.isspace] holds, in the ASCII range. *)
Definition is_space (c : ascii) : bool :=
  let n := nat_of_ascii c in
  Nat.eqb n 32 || (Nat.leb 9 n && Nat.leb n 13) || (Nat.leb 28 n && Nat.leb n 31).

Fixpoint lstrip (s : string) : string :=
  match s with
  | String c r => if is_space c then lstrip r else s
  | EmptyString => EmptyString
  end.

Fixpoint rev_string (s : string) (acc : string) : string :=
  match s with
  | EmptyString => acc
  | String c r => rev_string r (String c acc)
  end.

(** [s.strip()] *)
Definition strip (s : string) : string :=
  rev_string (lstrip (rev_string (lstrip s) EmptyString)) EmptyString.

Definition lower_ascii (c : ascii) : ascii :=
  let n := nat_of_ascii c in
  if Nat.leb 65 n && Nat.leb n 90 then ascii_of_nat (n + 32) else c.

(** [s.lower()] *)
Fixpoint lower (s : string) : string :=
  match s with
  | EmptyString => EmptyString
  | String c r => String (lower_ascii c) (lower r)
  end.

Fixpoint digits_fuel (fuel n : nat) (acc : string) : string :=
  match fuel with
  | 0 => acc
  | S f =>
      let acc' := String (ascii_of_nat (48 + n mod 10)) acc in
      if Nat.ltb n 10 then acc' else digits_fuel f (n / 10) acc'
  end.

(** [str(n)] for a natural number. *)
Definition nat_str (n : nat) : string := digits_fuel (S n) n "".

Fixpoint join (sep : string) (l : list string) : string :=
  match l with
  | [] => ""
  | [x] => x
  | x :: r => x ++ sep ++ join sep r
  end.

(* ------------------------------------------------------------------ *)
(** ** Python values: the results of [json.loads] *)

(** Numbers keep their source lexeme; objects are Python dicts, with one
    entry per key in insertion order. *)
Inductive json : Type :=
| JNull
| JBool (b : bool)
| JNum (lexeme : string)
| JStr (s : string)
| JArr (items : list json)
| JObj (fields : list (string * json)).

(** [d.get(k)] *)
Fixpoint dict_get (d : list (string * json)) (k : string) : option json :=
  match d with
  | [] => None
  | (k', v) :: r => if String.eqb k k' then Some v else dict_get r k
  end.

(** [d.get(k, default)] *)
Definition dict_get_default (d : list (string * json)) (k : string) (default : json) : json :=
  match dict_get d k with Some v => v | None => default end.

(** A number lexeme denotes zero when every digit of its mantissa is 0. *)
Fixpoint num_is_zero (lexeme : string) : bool :=
  match lexeme with
  | EmptyString => true
  | String c r =>
      if (c =? "e")%char || (c =? "E")%char then true
      else if (c =? "-")%char || (c =? ".")%char || (c =? "0")%char then num_is_zero r
      else false
  end.

(** Python truthiness, [bool(v)]. *)
Definition py_truthy (v : json) : bool :=
  match v with
  | JNull => false
  | JBool b => b
  | JNum lexeme => negb (num_is_zero lexeme)
  | JStr s => negb (String.eqb s "")
  | JArr l => match l with [] => false | _ => true end
  | JObj d => match d with [] => false | _ => true end
  end.

(** [repr(v)], approximately: a number is written as its JSON lexeme and a
    nested string in single quotes without escaping, which agrees with
    Python only for canonical number lexemes (not 5.50 or 1e5) and for
    strings needing no escape. *)
Fixpoint py_repr (v : json) : string :=
  match v with
  | JNull => "None"
  | JBool b => if b then "True" else "False"
  | JNum lexeme => lexeme
  | JStr s => "'" ++ s ++ "'"
  | JArr l => "[" ++ join ", " (map py_repr l) ++ "]"
  | JObj d => "{" ++ join ", " (map (fun '(k, x) => "'" ++ k ++ "': " ++ py_repr x) d) ++ "}"
  end.

(** [str(v)] *)
Definition py_str (v : json) : string :=
  match v with
  | JStr s => s
  | _ => py_repr v
  end.

(* ------------------------------------------------------------------ *)
(** ** Effects: a trace of external calls, and Python exceptions *)

Record exn := mk_exn { exn_type : string; exn_msg : string }.

Inductive event : Type :=
| EChat (messages : list (string * string)) (temperature : string)
| EPlan (user_input tool_descriptions : string)
| EExecute
| ESummarize
| ETool (name : string) (args : list (string * json))
| EGenerate (prompt : string) (attempt : nat)
| ESleep (seconds : nat).

Inductive res (A : Type) : Type :=
| Ok (a : A)
| Raise (e : exn).
Arguments Ok {A} a.
Arguments Raise {A} e.

Definition M (A : Type) : Type := list event -> res A * list event.

Definition ret {A} (a : A) : M A := fun tr => (Ok a, tr).
Definition raise {A} (e : exn) : M A := fun tr => (Raise e, tr).
Definition bind {A B} (m : M A) (k : A -> M B) : M B :=
  fun tr => match m tr with
            | (Ok a, tr') => k a tr'
            | (Raise e, tr') => (Raise e, tr')
            end.
Definition emit (e : event) : M unit := fun tr => (Ok tt, app tr [e]).
(** [try: m except Exception as e: h(e)] *)
Definition try_except {A} (m : M A) (h : exn -> M A) : M A :=
  fun tr => match m tr with
            | (Ok a, tr') => (Ok a, tr')
            | (Raise e, tr') => h e tr'
            end.
(** An external call that returns or raises. *)
Definition lift_res {A} (r : res A) : M A := fun tr => (r, tr).

Notation "x <- m ;; k" := (bind m (fun x => k))
  (at level 61, m at next level, right associativity).
Notation "m ;;; k" := (bind m (fun _ => k))
  (at level 61, right associativity).

Definition run {A} (m : M A) : res A * list event := m [].

Fixpoint count_chats (tr : list event) : nat :=
  match tr with
  | [] => 0
  | EChat _ _ :: r => S (count_chats r)
  | _ :: r => count_chats r
  end.

Definition handler : Type := list (string * json) -> res string.
(** A tool instance: its bound methods, in the order of [inspect.getmembers]. *)
Definition instance : Type := list (string * handler).
(** [tool_instances]: the dict from provider names to instances. *)
Definition registry : Type := list (string * instance).

(** The collaborators of the pipeline: the model backend
    ([llm.chat], answering the n-th call of a run), the planner, the tool
    catalogue text, the tool instances and [llm.mode].  The backend's
    answer is a [str]; a [None] answer ([response.text] of a blocked
    Gemini reply) is not modelled. *)
Record world := mk_world {
  w_chat : nat -> list (string * string) -> res string;
  w_plan : string -> string -> res string;
  w_tools_desc : string;
  w_tools : registry;
  w_mode : string
}.

(** [self.llm.chat(messages, temperature)] *)
Definition chat (w : world) (messages : list (string * string)) (temperature : string) : M string :=
  fun tr => (w_chat w (count_chats tr) messages, app tr [EChat messages temperature]).

(* ------------------------------------------------------------------ *)
(** ** backend/core/executor.py: [ToolExecutor] *)

Module Executor.

Definition PREVIOUS_RESULT : string := "PREVIOUS_RESULT".

Fixpoint find_method (methods : instance) (tool_name : string) : option handler :=
  match methods with
  | [] => None
  | (name, method) :: r =>
      if String.eqb name tool_name then Some method else find_method r tool_name
  end.

Fixpoint find_in_instances (tool_instances : registry) (tool_name : string) : option handler :=
  match tool_instances with
  | [] => None
  | (_, inst) :: r =>
      match find_method inst tool_name with
      | Some m => Some m
      | None => find_in_instances r tool_name
      end
  end.

(** [_find_tool]: [None] for a falsy or non-string name, else the first
    method of that name across the instances. *)
Definition find_tool (tool_instances : registry) (tool_name : json) : option handler :=
  match tool_name with
  | JStr n => if String.eqb n "" then None else find_in_instances tool_instances n
  | _ => None
  end.

(** The substitution loop over [args.items()]. *)
Definition process_args (last_result : string) (args : json) : list (string * json) :=
  match args with
  | JObj d =>
      map (fun '(k, v) =>
             match v with
             | JStr s =>
                 if contains PREVIOUS_RESULT s
                 then (k, JStr (py_replace s PREVIOUS_RESULT last_result))
                 else (k, v)
             | _ => (k, v)
             end) d
  | _ => []
  end.

(** [tool_method] called with keyword arguments [processed_args], awaited when asynchronous. *)
Definition invoke (name : string) (method : handler) (processed_args : list (string * json)) : M string :=
  emit (ETool name processed_args) ;;; lift_res (method processed_args).

(** One iteration of the loop body: [None] when the step is skipped by a
    [continue] before anything is recorded, [Some r] when [r] is appended
    to [results_cache] and becomes [last_result].  The handler's value is
    modelled by its [str]; [last_result = result] is only ever read through
    [str(last_result)], which is that same text. *)
Definition execute_step (tool_instances : registry) (last_result : string) (step : json)
  : M (option string) :=
  match step with
  | JObj d =>
      let tool_name := dict_get_default d "tool" JNull in
      let args := dict_get_default d "args" (JObj []) in
      if negb (py_truthy tool_name) || (match tool_name with JStr n => String.eqb n "step" | _ => false end)
      then ret None
      else
        let processed_args := process_args last_result args in
        match find_tool tool_instances tool_name with
        | None => ret (Some ("Error: Tool '" ++ py_str tool_name ++ "' not found."))
        | Some method =>
            try_except
              (result <- invoke (py_str tool_name) method processed_args ;; ret (Some result))
              (fun e => ret (Some ("Error executing " ++ py_str tool_name ++ ": " ++ exn_msg e)))
        end
  | _ => ret None
  end.

Fixpoint execute_loop (tool_instances : registry) (plan : list json)
  (last_result : string) (results_cache : list string) : M (list string) :=
  match plan with
  | [] => ret results_cache
  | step :: rest =>
      o <- execute_step tool_instances last_result step ;;
      match o with
      | None => execute_loop tool_instances rest last_result results_cache
      | Some r => execute_loop tool_instances rest r (app results_cache [r])
      end
  end.

Definition invalid_plan_msg : string := "Error: Invalid plan format. Expected a list of steps.".

(** [ToolExecutor.execute] *)
Definition execute (tool_instances : registry) (plan : json) : M (list string) :=
  match plan with
  | JArr steps => execute_loop tool_instances steps "" []
  | _ => ret [invalid_plan_msg]
  end.

End Executor.

(* ------------------------------------------------------------------ *)
(** ** backend/core/summarizer.py: [LLMSummarizer] *)

Module Summarizer.

Definition no_results_msg : string := "No se pudieron obtener resultados. Por favor intenta de nuevo.".

Definition system_msg : string :=
  "You are a helpful assistant. You have been given REAL DATA that was already " ++
  "fetched from the internet by automated tools. This data is REAL and CURRENT. " ++
  "Your job is to summarize it clearly for the user. " ++
  "FORBIDDEN PHRASES (never use these): " ++
  "'I cannot access real-time data', " ++
  "'I cannot browse the internet', " ++
  "'As an AI language model', " ++
  "'I don't have access to'. " ++
  "The data is ALREADY PROVIDED TO YOU. Use it.".

Fixpoint results_lines (i : nat) (rs : list string) : list string :=
  match rs with
  | [] => []
  | r :: rest =>
      ("--- Result " ++ nat_str (S i) ++ " ---" ++ nl ++ take 2000 r)
        :: results_lines (S i) rest
  end.

Definition summary_prompt (task results_text : string) : string :=
  "USER QUESTION: " ++ task ++ nl ++ nl ++
  "TOOL RESULTS (this data is REAL, already fetched from the internet/APIs):" ++ nl ++
  results_text ++ nl ++ nl ++
  "Using ONLY the data above, write a clear and helpful answer for the user." ++ nl ++
  "Do NOT add disclaimers about not being able to access real-time data." ++ nl ++
  "The data above IS real-time data, already fetched by tools on your behalf.".

(** [LLMSummarizer.summarize] *)
Definition summarize (w : world) (task : string) (results : list string) : M string :=
  let valid_results := filter (fun r => negb (startswith r "Error executing")) results in
  match valid_results with
  | [] => ret no_results_msg
  | _ =>
      let results_text := join nl (results_lines 0 valid_results) in
      chat w [("system", system_msg); ("user", summary_prompt task results_text)] "0.5"
  end.

End Summarizer.

(* ------------------------------------------------------------------ *)
(** ** [json.loads]: Python's JSON decoder, as a character-level machine

    The decoder of the standard library (the C scanner with [strict=True]):
    whitespace is space, tab, newline and carriage return; strings reject
    raw control characters and decode [\uXXXX] to its UTF-8 bytes (a
    surrogate pair stays two code units); a number is an optional minus,
    0 or a digit string not starting with 0, an optional fraction and an
    optional exponent (ASCII digits only); [NaN], [Infinity] and
    [-Infinity] are accepted; a repeated object key keeps its first
    position and its last value.  Every [JSONDecodeError] is [None]. *)

Module Json.

Definition is_ws (c : ascii) : bool :=
  let n := nat_of_ascii c in
  Nat.eqb n 32 || Nat.eqb n 9 || Nat.eqb n 10 || Nat.eqb n 13.

Definition is_digit (c : ascii) : bool :=
  let n := nat_of_ascii c in Nat.leb 48 n && Nat.leb n 57.

Definition hex_digit (c : ascii) : option nat :=
  let n := nat_of_ascii c in
  if Nat.leb 48 n && Nat.leb n 57 then Some (n - 48)
  else if Nat.leb 65 n && Nat.leb n 70 then Some (n - 55)
  else if Nat.leb 97 n && Nat.leb n 102 then Some (n - 87)
  else None.

Definition hex_value (hex : list ascii) : nat :=
  fold_left (fun acc c => acc * 16 + match hex_digit c with Some d => d | None => 0 end) hex 0.

(** UTF-8 bytes of a code point below 65536. *)
Definition utf8 (n : nat) : list ascii :=
  if Nat.ltb n 128 then [ascii_of_nat n]
  else if Nat.ltb n 2048 then [ascii_of_nat (192 + n / 64); ascii_of_nat (128 + n mod 64)]
  else [ascii_of_nat (224 + n / 4096); ascii_of_nat (128 + (n / 64) mod 64);
        ascii_of_nat (128 + n mod 64)].

Definition dq_char : ascii := ascii_of_nat 34.

(** The one-character escapes after a backslash. *)
Definition escape_char (c : ascii) : option ascii :=
  if (c =? dq_char)%char then Some c
  else if (c =? "\")%char then Some c
  else if (c =? "/")%char then Some c
  else if (c =? "b")%char then Some (ascii_of_nat 8)
  else if (c =? "f")%char then Some (ascii_of_nat 12)
  else if (c =? "n")%char then Some (ascii_of_nat 10)
  else if (c =? "r")%char then Some (ascii_of_nat 13)
  else if (c =? "t")%char then Some (ascii_of_nat 9)
  else None.

Inductive lit := LNull | LTrue | LFalse | LNaN | LInf | LNegInf.

Definition lit_value (l : lit) : json :=
  match l with
  | LNull => JNull
  | LTrue => JBool true
  | LFalse => JBool false
  | LNaN => JNum "NaN"
  | LInf => JNum "Infinity"
  | LNegInf => JNum "-Infinity"
  end.

(** The letters of a literal that follow its first character. *)
Definition lit_text (l : lit) : list ascii :=
  list_ascii_of_string
    match l with
    | LNull => "ull"
    | LTrue => "rue"
    | LFalse => "alse"
    | LNaN => "aN"
    | LInf => "nfinity"
    | LNegInf => "nfinity"
    end.

(** Position inside a number: after the sign, a leading 0, integer digits,
    the dot, fraction digits, the exponent mark, its sign, its digits. *)
Inductive numst := NSign | NZero | NInt | NDot | NFrac | NE | NESign | NExp.

Definition num_accepting (ns : numst) : bool :=
  match ns with NZero | NInt | NFrac | NExp => true | _ => false end.

(** Open containers: an array with its items (reversed), an object with
    its entries, an object whose next key has been read. *)
Inductive frame :=
| FArr (items : list json)
| FObj (pairs : list (string * json))
| FObjV (pairs : list (string * json)) (key : string).

Inductive mode :=
| MValue                                  (* a value is expected *)
| MArrFirst                               (* after [[]: a value or []] *)
| MAfter                                  (* after an item: [,] or the closer *)
| MObjFirst                               (* after [{]: a key or [}] *)
| MKey                                    (* after [,] in an object: a key *)
| MColon (key : string)                   (* after a key: [:] *)
| MStr (is_key : bool) (buf : list ascii)  (* inside a string, reversed *)
| MEsc (is_key : bool) (buf : list ascii)  (* after a backslash *)
| MUni (is_key : bool) (buf : list ascii) (hex : list ascii)
| MNum (lexeme : list ascii) (ns : numst) (* reversed lexeme *)
| MLit (l : lit) (pos : nat)
| MDone (v : json)                        (* the document is complete *)
| MErr.

Definition pstate : Type := (list frame * mode)%type.

Definition err : pstate := ([], MErr).

Fixpoint dict_insert (pairs : list (string * json)) (k : string) (v : json) : list (string * json) :=
  match pairs with
  | [] => [(k, v)]
  | (k', v') :: r => if String.eqb k k' then (k', v) :: r else (k', v') :: dict_insert r k v
  end.

(** A value has been read: hand it to the innermost open container. *)
Definition complete (st : list frame) (v : json) : pstate :=
  match st with
  | [] => ([], MDone v)
  | FArr items :: r => (FArr (v :: items) :: r, MAfter)
  | FObjV pairs key :: r => (FObj (dict_insert pairs key v) :: r, MAfter)
  | FObj _ :: _ => err
  end.

Definition step_after (st : list frame) (c : ascii) : pstate :=
  if is_ws c then (st, MAfter)
  else match st with
       | FArr items :: r =>
           if (c =? ",")%char then (st, MValue)
           else if (c =? "]")%char then complete r (JArr (rev items))
           else err
       | FObj pairs :: r =>
           if (c =? ",")%char then (st, MKey)
           else if (c =? "}")%char then complete r (JObj pairs)
           else err
       | _ => err
       end.

Definition step_value (st : list frame) (c : ascii) : pstate :=
  if is_ws c then (st, MValue)
  else if (c =? dq_char)%char then (st, MStr false [])
  else if (c =? "{")%char then (FObj [] :: st, MObjFirst)
  else if (c =? "[")%char then (FArr [] :: st, MArrFirst)
  else if (c =? "n")%char then (st, MLit LNull 0)
  else if (c =? "t")%char then (st, MLit LTrue 0)
  else if (c =? "f")%char then (st, MLit LFalse 0)
  else if (c =? "N")%char then (st, MLit LNaN 0)
  else if (c =? "I")%char then (st, MLit LInf 0)
  else if (c =? "-")%char then (st, MNum [c] NSign)
  else if (c =? "0")%char then (st, MNum [c] NZero)
  else if is_digit c then (st, MNum [c] NInt)
  else err.

(** The number ends before [c]; [c] is read after it. *)
Definition finish_num (st : list frame) (lexeme : list ascii) (c : ascii) : pstate :=
  match complete st (JNum (string_of_list_ascii (rev lexeme))) with
  | (st', MDone v) => if is_ws c then (st', MDone v) else err
  | (st', MAfter) => step_after st' c
  | _ => err
  end.

Definition is_exp_mark (c : ascii) : bool := (c =? "e")%char || (c =? "E")%char.

Definition step_num (st : list frame) (lexeme : list ascii) (ns : numst) (c : ascii) : pstate :=
  match ns with
  | NSign =>
      if (c =? "0")%char then (st, MNum (c :: lexeme) NZero)
      else if is_digit c then (st, MNum (c :: lexeme) NInt)
      else if (c =? "I")%char then (st, MLit LNegInf 0)
      else err
  | NZero =>
      if (c =? ".")%char then (st, MNum (c :: lexeme) NDot)
      else if is_exp_mark c then (st, MNum (c :: lexeme) NE)
      else finish_num st lexeme c
  | NInt =>
      if is_digit c then (st, MNum (c :: lexeme) NInt)
      else if (c =? ".")%char then (st, MNum (c :: lexeme) NDot)
      else if is_exp_mark c then (st, MNum (c :: lexeme) NE)
      else finish_num st lexeme c
  | NDot => if is_digit c then (st, MNum (c :: lexeme) NFrac) else err
  | NFrac =>
      if is_digit c then (st, MNum (c :: lexeme) NFrac)
      else if is_exp_mark c then (st, MNum (c :: lexeme) NE)
      else finish_num st lexeme c
  | NE =>
      if (c =? "+")%char || (c =? "-")%char then (st, MNum (c :: lexeme) NESign)
      else if is_digit c then (st, MNum (c :: lexeme) NExp)
      else err
  | NESign => if is_digit c then (st, MNum (c :: lexeme) NExp) else err
  | NExp =>
      if is_digit c then (st, MNum (c :: lexeme) NExp)
      else finish_num st lexeme c
  end.

Definition step_str (st : list frame) (is_key : bool) (buf : list ascii) (c : ascii) : pstate :=
  if (c =? dq_char)%char then
    if is_key then (st, MColon (string_of_list_ascii (rev buf)))
    else complete st (JStr (string_of_list_ascii (rev buf)))
  else if (c =? "\")%char then (st, MEsc is_key buf)
  else if Nat.ltb (nat_of_ascii c) 32 then err
  else (st, MStr is_key (c :: buf)).

Definition step (s : pstate) (c : ascii) : pstate :=
  let (st, m) := s in
  match m with
  | MValue => step_value st c
  | MArrFirst =>
      if is_ws c then (st, MArrFirst)
      else if (c =? "]")%char then
        match st with
        | FArr items :: r => complete r (JArr (rev items))
        | _ => err
        end
      else step_value st c
  | MAfter => step_after st c
  | MObjFirst =>
      if is_ws c then (st, MObjFirst)
      else if (c =? "}")%char then
        match st with
        | FObj pairs :: r => complete r (JObj pairs)
        | _ => err
        end
      else if (c =? dq_char)%char then (st, MStr true [])
      else err
  | MKey =>
      if is_ws c then (st, MKey)
      else if (c =? dq_char)%char then (st, MStr true [])
      else err
  | MColon key =>
      if is_ws c then (st, MColon key)
      else if (c =? ":")%char then
        match st with
        | FObj pairs :: r => (FObjV pairs key :: r, MValue)
        | _ => err
        end
      else err
  | MStr is_key buf => step_str st is_key buf c
  | MEsc is_key buf =>
      match escape_char c with
      | Some e => (st, MStr is_key (e :: buf))
      | None => if (c =? "u")%char then (st, MUni is_key buf []) else err
      end
  | MUni is_key buf hex =>
      match hex_digit c with
      | Some _ =>
          let hex' := app hex [c] in
          if Nat.eqb (length hex') 4
          then (st, MStr is_key (app (rev (utf8 (hex_value hex'))) buf))
          else (st, MUni is_key buf hex')
      | None => err
      end
  | MNum lexeme ns => step_num st lexeme ns c
  | MLit l pos =>
      match nth_error (lit_text l) pos with
      | Some x =>
          if (c =? x)%char then
            if Nat.eqb (S pos) (length (lit_text l)) then complete st (lit_value l)
            else (st, MLit l (S pos))
          else err
      | None => err
      end
  | MDone v => if is_ws c then (st, MDone v) else err
  | MErr => err
  end.

Definition init : pstate := ([], MValue).

Definition run_chars (s : pstate) (cs : list ascii) : pstate := fold_left step cs s.

(** End of input: only a finished document, or a finished number at top
    level, is a value. *)
Definition accept (s : pstate) : option json :=
  match s with
  | ([], MDone v) => Some v
  | ([], MNum lexeme ns) =>
      if num_accepting ns then Some (JNum (string_of_list_ascii (rev lexeme))) else None
  | _ => None
  end.

(** [json.loads(s)] *)
Definition loads (s : string) : option json := accept (run_chars init (list_ascii_of_string s)).

End Json.

(** Python's type name of a decoded value. *)
Definition py_type_name (v : json) : string :=
  match v with
  | JNull => "NoneType"
  | JBool _ => "bool"
  | JNum lexeme =>
      if forallb (fun c => Json.is_digit c || (c =? "-")%char) (list_ascii_of_string lexeme)
      then "int" else "float"
  | JStr _ => "str"
  | JArr _ => "list"
  | JObj _ => "dict"
  end.

(* ------------------------------------------------------------------ *)
(** ** core/validator.py: [LLMPlanValidator] *)

Module Validator.

Definition VALIDATOR_PROMPT : string :=
  join nl [
  "You are a Plan Validator and Normalizer.";
  "";
  "Your task is to take a planner output and produce a FINAL EXECUTION PLAN";
  "that is VALID JSON and can be safely parsed by a machine.";
  "";
  "Rules (MANDATORY):";
  "- Output ONLY valid JSON.";
  "- Do NOT use markdown.";
  "- Do NOT include explanations, comments, or extra text.";
  "- Do NOT include code inside the plan.";
  "- Do NOT include triple backticks or formatting.";
  "- The output MUST be a JSON array of steps.";
  "";
  "Validation responsibilities:";
  "1. Remove any markdown fences (```json, ```).";
  "2. Fix invalid JSON syntax if possible.";
  "3. Ensure all keys are enclosed in double quotes.";
  "4. Ensure the structure is:";
  "   [";
  "     {";
  "       " ++ dq ++ "step" ++ dq ++ ": number,";
  "       " ++ dq ++ "tool" ++ dq ++ ": string,";
  "       " ++ dq ++ "args" ++ dq ++ ": object,";
  "       " ++ dq ++ "description" ++ dq ++ ": string";
  "     }";
  "   ]";
  "5. If code or long content appears in args, replace it with a short descriptive prompt.";
  "6. Preserve the original intent of the plan.";
  "7. If the plan is unrecoverable, return an EMPTY JSON ARRAY: []";
  "";
  "You MUST NOT invent new steps.";
  "You MUST NOT invent new tools.";
  "You MUST NOT add explanations.";
  "";
  "Return ONLY the corrected JSON.";
  ""].

Fixpoint drop_to_lbr (cs : list ascii) : option (list ascii) :=
  match cs with
  | [] => None
  | c :: r => if (c =? "[")%char then Some cs else drop_to_lbr r
  end.

Fixpoint upto_last_rbr (cs : list ascii) : option (list ascii) :=
  match cs with
  | [] => None
  | c :: r =>
      match upto_last_rbr r with
      | Some p => Some (c :: p)
      | None => if (c =? "]")%char then Some [c] else None
      end
  end.

(** [re.search(r'\[.*\]', text, re.DOTALL).group()]: from the first
    [[] to the last []] after it (the greedy [.*] backtracks to it). *)
Definition search_array (text : string) : option string :=
  match drop_to_lbr (list_ascii_of_string text) with
  | None => None
  | Some t => option_map string_of_list_ascii (upto_last_rbr t)
  end.

(** [_extract_json] *)
Definition extract_json (text : string) : json :=
  match search_array text with
  | Some m => match Json.loads m with Some v => v | None => JArr [] end
  | None => JArr []
  end.

(** [key in step] *)
Definition py_in (step : json) (key : string) : res bool :=
  match step with
  | JObj d => Ok (match dict_get d key with Some _ => true | None => false end)
  | JStr s => Ok (contains key s)
  | JArr l => Ok (existsb (fun x => match x with JStr s => String.eqb s key | _ => false end) l)
  | _ => Raise (mk_exn "TypeError" ("argument of type '" ++ py_type_name step ++ "' is not iterable"))
  end.

(** [all('tool' in step and 'args' in step for step in steps)] *)
Fixpoint all_have_keys (steps : list json) : res bool :=
  match steps with
  | [] => Ok true
  | step :: r =>
      match py_in step "tool" with
      | Raise e => Raise e
      | Ok false => Ok false
      | Ok true =>
          match py_in step "args" with
          | Raise e => Raise e
          | Ok false => Ok false
          | Ok true => all_have_keys r
          end
      end
  end.

(** [LLMPlanValidator.validate] *)
Definition validate (w : world) (raw_plan : string) : M json :=
  let params_fast := extract_json raw_plan in
  fast <- (match params_fast with
           | JArr steps =>
               if py_truthy params_fast && Nat.ltb 0 (length steps)
               then b <- lift_res (all_have_keys steps) ;;
                    ret (if b then Some params_fast else None)
               else ret None
           | _ => ret None
           end) ;;
  match fast with
  | Some p => ret p
  | None =>
      validated <- chat w [("system", VALIDATOR_PROMPT); ("user", raw_plan)] "0.0" ;;
      ret (extract_json validated)
  end.

End Validator.

(* ------------------------------------------------------------------ *)
(** ** backend/core/agent_orchestrator.py: [AgentOrchestrator] *)

Module Orchestrator.

(** The returned dict [{"type": ..., "content": ..., "mode": ...}];
    [r_mode = None] when the dict has no ["mode"] key. *)
Record response := mk_response {
  r_type : string;
  r_content : json;
  r_mode : option string
}.

Definition ticker_prompt (cmd : string) : string :=
  "Rewrite this query by replacing any company name with its exact stock ticker " ++
  "(e.g. Apple -> AAPL, Microsoft -> MSFT). If there are no company names, output " ++
  "the original query exactly as is. ONLY OUTPUT THE REWRITTEN QUERY:" ++ nl ++ cmd.

(** [await self.planner.plan(user_input, tool_descriptions)] *)
Definition planner_plan (w : world) (user_input tool_descriptions : string) : M string :=
  emit (EPlan user_input tool_descriptions) ;;; lift_res (w_plan w user_input tool_descriptions).

Definition fence : string := "```".

(** [plan_str.replace("```json", "").replace("```", "").strip()] *)
Definition clean_plan (plan_str : string) : string :=
  strip (py_replace (py_replace plan_str (fence ++ "json") "") fence "").

Definition run_tools (w : world) (cmd : string) (plan : json) : M response :=
  emit EExecute ;;;
  results <- Executor.execute (w_tools w) plan ;;
  emit ESummarize ;;;
  final_report <- Summarizer.summarize w cmd results ;;
  ret (mk_response "text" (JStr final_report) (Some (w_mode w))).

Definition body (w : world) (cmd : string) : M response :=
  resolved <- chat w [("user", ticker_prompt cmd)] "0.7" ;;
  let resolved_cmd := strip resolved in
  plan_str <- planner_plan w resolved_cmd (w_tools_desc w) ;;
  let plan_str := clean_plan plan_str in
  match Json.loads plan_str with
  | None => ret (mk_response "text" (JStr plan_str) (Some (w_mode w)))
  | Some plan =>
      match plan with
      | JArr (p0 :: _) =>
          match p0 with
          | JObj d =>
              match dict_get d "tool" with
              | None | Some JNull =>
                  ret (mk_response "text"
                         (dict_get_default d "response" (JStr "No response generated.")) None)
              | Some _ => run_tools w cmd plan
              end
          | _ => raise (mk_exn "AttributeError"
                          ("'" ++ py_type_name p0 ++ "' object has no attribute 'get'"))
          end
      | _ =>
          result <- chat w [("user", cmd)] "0.7" ;;
          ret (mk_response "text" (JStr result) (Some (w_mode w)))
      end
  end.

(** [AgentOrchestrator.execute_query] *)
Definition execute_query (w : world) (cmd : string) : M response :=
  try_except (body w cmd)
    (fun e => ret (mk_response "text" (JStr ("**Agent Execution Error:** " ++ exn_msg e)) None)).

End Orchestrator.

(* ------------------------------------------------------------------ *)
(** ** backend/utils/llm_client.py: [LLMClient._chat_gemini] *)

Module LLMClient.

Definition prompt_part (msg : string * string) : string :=
  let (role, content) := msg in
  if String.eqb role "system" then "[System Instructions]" ++ nl ++ content ++ nl else content.

Definition full_prompt (messages : list (string * string)) : string :=
  join nl (map prompt_part messages).

Definition is_rate_limit (error_msg : string) : bool :=
  contains "429" error_msg || contains "quota" (lower error_msg).

(** The [for attempt in range(retries)] loop; [generate attempt prompt] is
    the outcome of [client.models.generate_content] on that attempt. *)
Fixpoint retry_loop (generate : nat -> string -> res string) (prompt : string)
  (attempt remaining : nat) : M string :=
  match remaining with
  | 0 => raise (mk_exn "Exception" "Gemini API failed after retries")
  | S r =>
      try_except
        (emit (EGenerate prompt attempt) ;;; lift_res (generate attempt prompt))
        (fun e =>
           if is_rate_limit (exn_msg e)
           then emit (ESleep (45 * (attempt + 1))) ;;; retry_loop generate prompt (S attempt) r
           else raise e)
  end.

(** [_chat_gemini(messages, temperature, retries=3)] *)
Definition chat_gemini (generate : nat -> string -> res string)
  (messages : list (string * string)) (retries : nat) : M string :=
  retry_loop generate (full_prompt messages) 0 retries.

End LLMClient.

(* ------------------------------------------------------------------ *)
(** ** Notions used by the statements *)

(** A step that [execute] does not skip: a mapping whose ["tool"] entry is
    present, truthy and not the ["step"] marker. *)
Definition structurally_valid (step : json) : bool :=
  match step with
  | JObj d =>
      match dict_get d "tool" with
      | Some t => py_truthy t && negb (match t with JStr n => String.eqb n "step" | _ => false end)
      | None => false
      end
  | _ => false
  end.

(** A provider method [echo(msg)] returning its argument verbatim. *)
Definition echo : handler :=
  fun args =>
    match dict_get args "msg" with
    | Some v => Ok (py_str v)
    | None => Raise (mk_exn "TypeError" "echo() missing 1 required positional argument: 'msg'")
    end.

Definition echo_tools : registry := [("echo_provider", [("echo", echo)])].

Definition echo_step (msg : string) : json :=
  JObj [("tool", JStr "echo"); ("args", JObj [("msg", JStr msg)])].

(** The carry as "the latest StepResult recorded so far, empty before any". *)
Definition latest_result (results : list string) : string := last results "".

(** The executor loop with the carry read off the results recorded so far. *)
Fixpoint execute_latest (tool_instances : registry) (plan : list json) (results : list string)
  : M (list string) :=
  match plan with
  | [] => ret results
  | step :: rest =>
      o <- Executor.execute_step tool_instances (latest_result results) step ;;
      match o with
      | None => execute_latest tool_instances rest results
      | Some r => execute_latest tool_instances rest (app results [r])
      end
  end.

(** The StepResult of a step naming an unknown tool. *)
Definition not_found_msg (name : string) : string := "Error: Tool '" ++ name ++ "' not found.".

(** A world whose model answers every call with "query" and whose planner
    returns [raw]. *)
Definition world_of_plan (raw : string) : world :=
  mk_world (fun _ _ => Ok "query") (fun _ _ => Ok raw) "" echo_tools "gemini".

(** [[{"tool": null, "response": <value>}]] as planner text. *)
Definition no_tool_plan (value : string) : string :=
  "[{" ++ dq ++ "tool" ++ dq ++ ":null," ++ dq ++ "response" ++ dq ++ ":" ++ value ++ "}]".

Definition quoted (s : string) : string := dq ++ s ++ dq.

(** A Gemini backend answering 429 on every attempt. *)
Definition always_429 : nat -> string -> res string :=
  fun _ _ => Raise (mk_exn "ClientError" "429 RESOURCE_EXHAUSTED").

(** ** Decoder invariant used by the validator proofs *)

Definition frame_is_arr (f : Json.frame) : bool :=
  match f with Json.FArr _ => true | _ => false end.

Definition bottom_arr (st : list Json.frame) : bool :=
  frame_is_arr (last st (Json.FObj [])).

Definition is_arr (v : json) : bool := match v with JArr _ => true | _ => false end.

(** No list can come out: at top level no value is pending and the
    finished value (if any) is not a list; inside containers the
    outermost one is an object. *)
Definition arr_free (s : Json.pstate) : bool :=
  let (st, m) := s in
  match st with
  | [] =>
      match m with
      | Json.MValue | Json.MArrFirst => false
      | Json.MDone v => negb (is_arr v)
      | _ => true
      end
  | _ :: _ => negb (bottom_arr st)
  end.

Ltac split_ifs :=
  repeat match goal with
         | |- context [if ?b then _ else _] => let E := fresh "E" in destruct b eqn:E
         end.

(* ------------------------------------------------------------------ *)
(** ** core/executor.py: the [ToolExecutor] of the MCP console client *)

Module CoreExecutor.

Definition PREVIOUS_RESULT : string := "PREVIOUS_RESULT".

(** [await session.call_tool(name, args)]: the items of [result.content],
    [Some text] for an item with a [text] attribute, [None] otherwise. *)
Definition session : Type := json -> list (string * json) -> res (list (option string)).

(** [value == "PREVIOUS_RESULT"] *)
Definition is_token (v : json) : bool :=
  match v with JStr s => String.eqb s PREVIOUS_RESULT | _ => false end.

(** The injection loop over [tool_args.items()]; it assigns to keys the
    dict already has, so keys and their order are those of [tool_args]. *)
Definition inject (last_result : json) (tool_args : list (string * json)) : list (string * json) :=
  map (fun '(k, v) =>
         if is_token v
         then (k, JStr ("Content from previous step:" ++ nl ++ py_str last_result))
         else (k, v)) tool_args.

(** ["".join(c.text for c in result.content if hasattr(c, "text"))] *)
Fixpoint join_texts (content : list (option string)) : string :=
  match content with
  | [] => ""
  | Some t :: r => t ++ join_texts r
  | None :: r => join_texts r
  end.

Definition no_attr (v : json) (attr : string) : exn :=
  mk_exn "AttributeError"
    ("'" ++ py_type_name v ++ "' object has no attribute '" ++ attr ++ "'").

(** One iteration of the loop: the value appended to [results], which
    also becomes [last_result].  [step.get] on a non-dict step and
    [tool_args.items()] on non-dict arguments raise [AttributeError],
    which nothing catches. *)
Definition execute_step (sess : session) (last_result : json) (step : json) : M json :=
  match step with
  | JObj d =>
      let tool_name := dict_get_default d "tool" JNull in
      let tool_args := dict_get_default d "args" (JObj []) in
      let description := dict_get_default d "description" (JStr "") in
      if match tool_name with JNull => true | JStr n => String.eqb n "null" | _ => false end
      then ret (dict_get_default d "response" description)
      else
        match tool_args with
        | JObj a =>
            let a' := inject last_result a in
            try_except
              (emit (ETool (py_str tool_name) a') ;;;
               content <- lift_res (sess tool_name a') ;;
               ret (JStr (join_texts content)))
              (fun e => ret (JStr ("Error: " ++ exn_msg e)))
        | _ => raise (no_attr tool_args "items")
        end
  | _ => raise (no_attr step "get")
  end.

Fixpoint execute_loop (sess : session) (plan : list json) (last_result : json)
  (results : list json) : M (list json) :=
  match plan with
  | [] => ret results
  | step :: rest =>
      r <- execute_step sess last_result step ;;
      execute_loop sess rest r (app results [r])
  end.

(** [ToolExecutor.execute(plan, session)]; the plan is the list returned
    by the validator. *)
Definition execute (sess : session) (plan : list json) : M (list json) :=
  execute_loop sess plan (JStr "") [].

End CoreExecutor.

(* ------------------------------------------------------------------ *)
(** ** backend/utils/llm_client.py: backend selection and the singleton *)

Module Client.

(** The fields [prefer_local] and [_local_available] of an [LLMClient],
    with the number of probes of the local server sent so far. *)
Record llm_client := mk_client {
  prefer_local : bool;
  local_available : option bool
}.

Definition state : Type := (llm_client * nat)%type.

(** [requests.get(f"{LOCAL_API_URL}/models", timeout=2)] on the k-th
    probe: a status code, or an exception. *)
Definition probe_oracle : Type := nat -> res nat.

(** [LLMClient.__init__(prefer_local)] *)
Definition fresh (p : bool) : llm_client := mk_client p None.

(** [_check_local]: the cached answer, else one probe whose outcome is
    cached ([status_code == 200]; any exception gives [False]). *)
Definition check_local (probe : probe_oracle) (s : state) : bool * state :=
  let (c, k) := s in
  match local_available c with
  | Some b => (b, s)
  | None =>
      let b := match probe k with Ok code => Nat.eqb code 200 | Raise _ => false end in
      (b, (mk_client (prefer_local c) (Some b), S k))
  end.

(** [self.prefer_local and self._check_local()] *)
Definition use_local (probe : probe_oracle) (s : state) : bool * state :=
  if prefer_local (fst s) then check_local probe s else (false, s).

(** The [mode] property. *)
Definition mode (probe : probe_oracle) (s : state) : string * state :=
  let (b, s') := use_local probe s in (if b then "local" else "gemini", s').

(** [LLMClient.chat(messages, temperature)]: the state after the backend
    choice, and the call made: [_chat_local] (the local server's answer)
    or [_chat_gemini] with its default three retries. *)
Definition chat (probe : probe_oracle)
  (local : list (string * string) -> string -> res string)
  (generate : nat -> string -> res string)
  (s : state) (messages : list (string * string)) (temperature : string) : state * M string :=
  let (b, s') := use_local probe s in
  (s', if b then lift_res (local messages temperature)
       else LLMClient.chat_gemini generate messages 3).

(** Reading [mode] or calling [chat] on the same client. *)
Inductive op :=
| OMode
| OChat (messages : list (string * string)) (temperature : string).

Inductive outcome :=
| Mode_is (m : string)
| Chat_runs (call : M string).

Fixpoint run_ops (probe : probe_oracle)
  (local : list (string * string) -> string -> res string)
  (generate : nat -> string -> res string)
  (s : state) (ops : list op) : list outcome * state :=
  match ops with
  | [] => ([], s)
  | OMode :: r =>
      let (m, s') := mode probe s in
      let (outs, s'') := run_ops probe local generate s' r in (Mode_is m :: outs, s'')
  | OChat messages temperature :: r =>
      let (s', call) := chat probe local generate s messages temperature in
      let (outs, s'') := run_ops probe local generate s' r in (Chat_runs call :: outs, s'')
  end.

(** [get_client(prefer_local)] on the module global [_default_client]. *)
Definition get_client (p : bool) (default_client : option llm_client) : llm_client * option llm_client :=
  match default_client with
  | None => let c := fresh p in (c, Some c)
  | Some c => (c, default_client)
  end.

Fixpoint get_clients (ps : list bool) (default_client : option llm_client) : list llm_client :=
  match ps with
  | [] => []
  | p :: r =>
      let (c, g) := get_client p default_client in c :: get_clients r g
  end.

End Client.

(* ------------------------------------------------------------------ *)
(** ** backend/main.py: [handle_command] *)

Module Main.

Fixpoint split_go (s : string) (cur : option string) : list string :=
  match s with
  | EmptyString => match cur with Some w => [w] | None => [] end
  | String c r =>
      if is_space c
      then match cur with Some w => w :: split_go r None | None => split_go r None end
      else split_go r (Some (match cur with Some w => w ++ String c EmptyString
                                          | None => String c EmptyString end))
  end.

(** [s.split()] *)
Definition split (s : string) : list string := split_go s None.



End Main.

(* ------------------------------------------------------------------ *)
(** ** Notions used by the further statements *)

Definition is_tool_event (e : event) : bool :=
  match e with ETool _ _ => true | _ => false end.

(** The calls and waits of [k] rate-limited Gemini attempts from [attempt]. *)
Fixpoint retry_trace (p : string) (attempt k : nat) : list event :=
  match k with
  | 0 => []
  | S k' => EGenerate p attempt :: ESleep (45 * (attempt + 1)) :: retry_trace p (S attempt) k'
  end.

Fixpoint total_sleep (tr : list event) : nat :=
  match tr with
  | [] => 0
  | ESleep n :: r => n + total_sleep r
  | _ :: r => total_sleep r
  end.

(** Only a list can come out: the outermost container is an array, and a
    finished top-level value is a list. *)
Definition arr_only (s : Json.pstate) : bool :=
  let (st, m) := s in
  match st with
  | [] => match m with Json.MDone v => is_arr v | Json.MErr => true | _ => false end
  | _ :: _ => bottom_arr st
  end.

(** [tool_name is None or tool_name == "null"] in core/executor.py *)
Definition core_no_tool (t : json) : bool :=
  match t with JNull => true | JStr n => String.eqb n "null" | _ => false end.

(** What an operation on an [LLMClient] does once the backend choice is
    [b] ([prefer_local and _check_local()]). *)
Definition client_decided (local : list (string * string) -> string -> res string)
  (generate : nat -> string -> res string) (b : bool) (o : Client.op) : Client.outcome :=
  match o with
  | Client.OMode => Client.Mode_is (if b then "local" else "gemini")
  | Client.OChat messages temperature =>
      Client.Chat_runs (if b then lift_res (local messages temperature)
                        else LLMClient.chat_gemini generate messages 3)
  end.

(* ================================================================== *)
(** * Proofs *)

Lemma prefix_app (s t : string) : String.prefix s (s ++ t) = true.
Proof.
  induction s as [|a s IH]; simpl; [destruct t; reflexivity|].
  destruct (ascii_dec a a) as [_|n]; [exact IH | contradiction n; reflexivity].
Qed.

Lemma contains_prefix (sub t : string) : contains sub (sub ++ t) = true.
Proof.
  assert (H : String.prefix sub (sub ++ t) = true) by apply prefix_app.
  revert H; destruct (sub ++ t); simpl; intros H; rewrite H; reflexivity.
Qed.

Lemma contains_app (sub a b : string) : contains sub (a ++ sub ++ b) = true.
Proof.
  induction a as [|c a IH]; simpl.
  - apply contains_prefix.
  - rewrite IH, orb_true_r. reflexivity.
Qed.

Lemma drop_length_app (a b : string) : drop (String.length a) (a ++ b) = b.
Proof. induction a; simpl; auto. Qed.

Lemma replace_fuel_absent (n : nat) (old new s : string) :
  contains old s = false -> replace_fuel n old new s = s.
Proof.
  revert s; induction n as [|n IH]; intros s H; [reflexivity|].
  destruct s as [|c r]; [reflexivity|].
  assert (Hpr : String.prefix old (String c r) = false /\ contains old r = false)
    by (apply orb_false_iff; exact H).
  destruct Hpr as [Hp Hr].
  change (replace_fuel (S n) old new (String c r)) with
    (if String.prefix old (String c r)
     then new ++ replace_fuel n old new (drop (String.length old) (String c r))
     else String c (replace_fuel n old new r)).
  rewrite Hp, IH by exact Hr. reflexivity.
Qed.

Lemma find_in_instances_absent (reg : registry) (name : string) :
  (forall pname inst, In (pname, inst) reg -> ~ In name (map fst inst)) ->
  Executor.find_in_instances reg name = None.
Proof.
  induction reg as [|[pname inst] reg IH]; intros H; simpl; [reflexivity|].
  assert (Hm : Executor.find_method inst name = None).
  { assert (Hn : ~ In name (map fst inst)) by (apply (H pname); left; reflexivity).
    clear -Hn. induction inst as [|[k m] inst IHi]; simpl; [reflexivity|].
    simpl in Hn. destruct (String.eqb_spec k name) as [->|_].
    - exfalso. apply Hn. left. reflexivity.
    - apply IHi. intros Hi. apply Hn. right. exact Hi. }
  rewrite Hm. apply IH. intros p i Hi. apply (H p i). right. exact Hi.
Qed.

(** One loop iteration never raises: a skipped step records nothing, a
    valid step records exactly one StepResult. *)
Lemma execute_step_shape (reg : registry) (last_result : string) (step : json) (tr : list event) :
  exists o tr', Executor.execute_step reg last_result step tr = (Ok o, tr') /\
    (structurally_valid step = false -> o = None /\ tr' = tr) /\
    (structurally_valid step = true -> exists r, o = Some r).
Proof.
  unfold Executor.execute_step, structurally_valid.
  destruct step as [| | | |l|d]; try (do 2 eexists; split; [reflexivity|]; split; [auto|discriminate]).
  unfold dict_get_default. destruct (dict_get d "tool") as [t|]; simpl.
  2: { do 2 eexists; split; [reflexivity|]; split; [auto|discriminate]. }
  destruct (py_truthy t) eqn:Ht; simpl.
  2: { do 2 eexists; split; [reflexivity|]; split; [auto|discriminate]. }
  destruct (match t with JStr n => String.eqb n "step" | _ => false end) eqn:Hs; simpl.
  { do 2 eexists; split; [reflexivity|]; split; [auto|discriminate]. }
  destruct (Executor.find_tool reg t) as [m|].
  - unfold try_except, bind, Executor.invoke, emit, lift_res, ret.
    destruct (m (Executor.process_args last_result
                  match dict_get d "args" with Some v => v | None => JObj [] end)) as [r|e];
      do 2 eexists; (split; [reflexivity|]); split; try discriminate; eauto.
  - do 2 eexists; split; [reflexivity|]; split; [discriminate|eauto].
Qed.

Lemma execute_loop_length (reg : registry) (steps : list json) :
  forall last_result acc tr, exists results tr',
    Executor.execute_loop reg steps last_result acc tr = (Ok results, tr') /\
    length results = length acc + length (filter structurally_valid steps).
Proof.
  induction steps as [|step steps IH]; intros lr acc tr; simpl.
  - exists acc, tr. split; [reflexivity|lia].
  - destruct (execute_step_shape reg lr step tr) as (o & tr1 & E & Hf & Ht).
    unfold bind. rewrite E.
    destruct (structurally_valid step) eqn:V.
    + destruct (Ht eq_refl) as [r ->].
      destruct (IH r (app acc [r]) tr1) as (results & tr' & E' & L).
      exists results, tr'. split; [exact E'|]. rewrite L, length_app. simpl. lia.
    + destruct (Hf eq_refl) as [-> ->].
      destruct (IH lr acc tr) as (results & tr' & E' & L).
      exists results, tr'. split; [exact E'|exact L].
Qed.

Lemma contains_app_l (sub a b : string) : contains sub b = true -> contains sub (a ++ b) = true.
Proof.
  intros H. induction a as [|c a IH]; simpl; [exact H|].
  rewrite IH, orb_true_r. reflexivity.
Qed.

Lemma py_replace_head (old new Y : string) :
  old <> "" -> contains old Y = false -> py_replace (old ++ Y) old new = new ++ Y.
Proof.
  intros Hne HY. unfold py_replace.
  destruct old as [|c o]; [contradiction|].
  change (String.eqb (String c o) "") with false. cbv iota.
  change (String.length (String c o ++ Y)) with (S (String.length (o ++ Y))).
  change (replace_fuel (S (String.length (o ++ Y))) (String c o) new (String c o ++ Y)) with
    (if String.prefix (String c o) (String c o ++ Y)
     then new ++ replace_fuel (String.length (o ++ Y)) (String c o) new
                  (drop (String.length (String c o)) (String c o ++ Y))
     else String c (replace_fuel (String.length (o ++ Y)) (String c o) new (o ++ Y))).
  rewrite prefix_app, drop_length_app, replace_fuel_absent by exact HY.
  reflexivity.
Qed.

Lemma execute_loop_latest (reg : registry) (steps : list json) :
  forall acc tr,
    Executor.execute_loop reg steps (latest_result acc) acc tr = execute_latest reg steps acc tr.
Proof.
  induction steps as [|step steps IH]; intros acc tr; simpl; [reflexivity|].
  unfold bind.
  destruct (Executor.execute_step reg (latest_result acc) step tr) as [[[r|]|e] tr']; auto.
  rewrite <- IH. unfold latest_result. rewrite last_last. reflexivity.
Qed.

(** C3: for every plan that is a list, [execute] returns normally, with a
    list whose length is the number of structurally valid steps: a mapping
    with a present, truthy tool name other than ["step"]; every other step
    is skipped and each valid step yields exactly one StepResult. *)
Theorem execute_length_valid_steps (reg : registry) (steps : list json) (tr : list event) :
  exists results tr',
    Executor.execute reg (JArr steps) tr = (Ok results, tr') /\
    length results = length (filter structurally_valid steps).
Proof.
  unfold Executor.execute.
  destruct (execute_loop_length reg steps "" [] tr) as (results & tr' & E & L).
  exists results, tr'. split; [exact E|]. rewrite L. reflexivity.
Qed.

(** C10: when the plan passed to [execute] is not a list, [execute] raises
    nothing, invokes no tool (the trace is unchanged) and returns exactly
    ["Error: Invalid plan format. Expected a list of steps."]. *)
Theorem execute_non_list_plan (reg : registry) (plan : json) (tr : list event) :
  (forall steps, plan <> JArr steps) ->
  Executor.execute reg plan tr =
    (Ok ["Error: Invalid plan format. Expected a list of steps."], tr).
Proof.
  intros H. destruct plan; try reflexivity.
  exfalso. eapply H. reflexivity.
Qed.

Lemma execute_non_list_plan_witness :
  (forall steps, JStr "plan" <> JArr steps) /\
  Executor.execute echo_tools (JStr "plan") [] =
    (Ok ["Error: Invalid plan format. Expected a list of steps."], []).
Proof.
  split; [intros steps; discriminate|].
  apply execute_non_list_plan. intros steps; discriminate.
Defined.

(** C6: a plan made of one step naming a tool that no provider has
    ([name] non-empty and not the ["step"] marker): [_find_tool] yields the
    sentinel [None] rather than raising, and [execute] returns normally
    with exactly one StepResult, which contains "not found" and the tool's
    name; no tool is invoked. *)
Theorem execute_unknown_tool (reg : registry) (name : string) (d : list (string * json))
  (tr : list event) :
  name <> "" -> name <> "step" ->
  dict_get d "tool" = Some (JStr name) ->
  (forall pname inst, In (pname, inst) reg -> ~ In name (map fst inst)) ->
  Executor.find_tool reg (JStr name) = None /\
  Executor.execute reg (JArr [JObj d]) tr = (Ok [not_found_msg name], tr) /\
  contains "not found" (not_found_msg name) = true /\
  contains name (not_found_msg name) = true.
Proof.
  intros Hne Hst Hd Hreg.
  assert (Hf : Executor.find_tool reg (JStr name) = None).
  { unfold Executor.find_tool.
    destruct (String.eqb_spec name "") as [E|_]; [contradiction|].
    apply find_in_instances_absent. exact Hreg. }
  split; [exact Hf|]. split; [|split].
  - unfold Executor.execute, Executor.execute_loop, bind, Executor.execute_step,
      dict_get_default.
    rewrite Hd. simpl.
    destruct (String.eqb_spec name "") as [E|_]; [contradiction|].
    destruct (String.eqb_spec name "step") as [E|_]; [contradiction|].
    simpl. rewrite find_in_instances_absent by exact Hreg. reflexivity.
  - unfold not_found_msg. apply contains_app_l, contains_app_l. reflexivity.
  - unfold not_found_msg. apply contains_app.
Qed.

Lemma execute_unknown_tool_witness :
  Executor.find_tool echo_tools (JStr "get_quote") = None /\
  Executor.execute echo_tools (JArr [JObj [("tool", JStr "get_quote")]]) [] =
    (Ok [not_found_msg "get_quote"], []) /\
  contains "not found" (not_found_msg "get_quote") = true /\
  contains "get_quote" (not_found_msg "get_quote") = true.
Proof.
  apply (execute_unknown_tool echo_tools "get_quote" [("tool", JStr "get_quote")] []).
  - discriminate.
  - discriminate.
  - reflexivity.
  - intros pname inst [E|[]]. inversion E; subst. simpl.
    intros [H|[]]. discriminate.
Defined.

(** C4: the text PREVIOUS_RESULT inside a string argument is replaced by
    the stringified result of the prior step before dispatch: for every
    [X] and [Y] free of the token, the plan
    [[{tool: echo, args: {msg: X}}, {tool: echo, args: {msg: PREVIOUS_RESULT ++ Y}}]]
    yields the StepResults [[X; X ++ Y]], the second handler call
    receiving [msg = X ++ Y]; with [X = "X"], [Y = "-Y"] the second result
    is "X-Y". *)
Theorem execute_substitutes_previous_result (X Y : string) (tr : list event) :
  contains Executor.PREVIOUS_RESULT X = false ->
  contains Executor.PREVIOUS_RESULT Y = false ->
  Executor.execute echo_tools
    (JArr [echo_step X; echo_step (Executor.PREVIOUS_RESULT ++ Y)]) tr =
  (Ok [X; X ++ Y],
   app (app tr [ETool "echo" [("msg", JStr X)]]) [ETool "echo" [("msg", JStr (X ++ Y))]]).
Proof.
  intros HX HY.
  unfold Executor.execute, Executor.execute_loop, Executor.execute_step, bind, try_except,
    Executor.invoke, emit, lift_res, ret, echo.
  cbn -[Executor.PREVIOUS_RESULT contains py_replace].
  rewrite HX, contains_prefix.
  cbn -[Executor.PREVIOUS_RESULT contains py_replace].
  rewrite py_replace_head by (try exact HY; discriminate).
  reflexivity.
Qed.

Lemma execute_substitutes_previous_result_witness :
  contains Executor.PREVIOUS_RESULT "X" = false /\
  contains Executor.PREVIOUS_RESULT "-Y" = false /\
  Executor.execute echo_tools
    (JArr [echo_step "X"; echo_step (Executor.PREVIOUS_RESULT ++ "-Y")]) [] =
  (Ok ["X"; "X-Y"],
   app (app [] [ETool "echo" [("msg", JStr "X")]]) [ETool "echo" [("msg", JStr "X-Y")]]).
Proof.
  split; [reflexivity|]. split; [reflexivity|].
  apply (execute_substitutes_previous_result "X" "-Y" []); reflexivity.
Defined.

(** C5 (as amended): the carry substituted for PREVIOUS_RESULT is always
    the latest StepResult recorded so far, i.e. that of the nearest
    preceding non-skipped step, and empty text before any; error markers
    of unknown tools and of raising handlers are StepResults, so they too
    become the carry.  [execute] equals the loop that reads its carry off
    the recorded results. *)
Theorem execute_carry_is_latest_result (reg : registry) (steps : list json) (tr : list event) :
  Executor.execute reg (JArr steps) tr = execute_latest reg steps [] tr.
Proof.
  unfold Executor.execute.
  change "" with (latest_result []).
  apply execute_loop_latest.
Qed.

(** C5, counterexample: in the plan [[echo "A", {tool: "step"}, echo
    PREVIOUS_RESULT]] the middle step is skipped and records no
    StepResult, yet the third step's token is replaced by "A", the result
    of the first step and not of the immediately preceding step of the
    plan (nor empty text). *)
Lemma execute_carry_skips_invalid_step :
  structurally_valid (JObj [("tool", JStr "step")]) = false /\
  run (Executor.execute echo_tools
         (JArr [echo_step "A"; JObj [("tool", JStr "step")]; echo_step Executor.PREVIOUS_RESULT])) =
    (Ok ["A"; "A"], [ETool "echo" [("msg", JStr "A")]; ETool "echo" [("msg", JStr "A")]]).
Proof. split; reflexivity. Qed.

(** C2 (a defect): [summarize] drops only results starting with
    "Error executing"; a list made only of the "tool not found" marker of
    an unknown tool (an error marker) is not recognised, and [summarize]
    issues a model call instead of returning the fixed fallback. *)
Theorem summarize_calls_model_on_not_found (w : world) (task name : string) (tr : list event) :
  exists messages,
    Summarizer.summarize w task [not_found_msg name] tr =
      (w_chat w (count_chats tr) messages, app tr [EChat messages "0.5"]).
Proof.
  unfold Summarizer.summarize. cbn -[chat Summarizer.summary_prompt].
  eexists. reflexivity.
Qed.

(** C9 (a defect): when every attempt is rate-limited, [_chat_gemini]
    makes its three attempts and sleeps 45, 90 and 135 seconds (the last
    after the final attempt) before raising: the waits grow linearly,
    45 * (attempt + 1), not exponentially (135 is not 90 * 90 / 45). *)
Theorem chat_gemini_linear_backoff (generate : nat -> string -> res string)
  (messages : list (string * string)) (tr : list event) :
  (forall attempt prompt, exists e,
      generate attempt prompt = Raise e /\ LLMClient.is_rate_limit (exn_msg e) = true) ->
  LLMClient.chat_gemini generate messages 3 tr =
    (Raise (mk_exn "Exception" "Gemini API failed after retries"),
     app tr [EGenerate (LLMClient.full_prompt messages) 0; ESleep 45;
             EGenerate (LLMClient.full_prompt messages) 1; ESleep 90;
             EGenerate (LLMClient.full_prompt messages) 2; ESleep 135]) /\
  45 * 135 <> 90 * 90.
Proof.
  intros H. split; [|lia].
  unfold LLMClient.chat_gemini. set (p := LLMClient.full_prompt messages).
  destruct (H 0 p) as (e0 & G0 & R0).
  destruct (H 1 p) as (e1 & G1 & R1).
  destruct (H 2 p) as (e2 & G2 & R2).
  cbn [LLMClient.retry_loop].
  unfold try_except, bind, emit, lift_res, raise.
  rewrite G0, R0. cbn [Nat.add Nat.mul]. rewrite G1, R1. rewrite G2, R2.
  repeat rewrite <- app_assoc. reflexivity.
Qed.

Lemma chat_gemini_linear_backoff_witness :
  LLMClient.chat_gemini always_429 [("user", "hi")] 3 [] =
    (Raise (mk_exn "Exception" "Gemini API failed after retries"),
     app [] [EGenerate (LLMClient.full_prompt [("user", "hi")]) 0; ESleep 45;
             EGenerate (LLMClient.full_prompt [("user", "hi")]) 1; ESleep 90;
             EGenerate (LLMClient.full_prompt [("user", "hi")]) 2; ESleep 135]) /\
  45 * 135 <> 90 * 90.
Proof.
  apply chat_gemini_linear_backoff.
  intros attempt prompt. eexists. split; reflexivity.
Defined.

(** The response of a run of the orchestrator's body that returns. *)
Lemma body_result (w : world) (cmd : string) (tr : list event) r tr' :
  Orchestrator.body w cmd tr = (Ok r, tr') ->
  Orchestrator.r_type r = "text" /\
  ((exists s, Orchestrator.r_content r = JStr s) \/
   (exists u raw d rest, w_plan w u (w_tools_desc w) = Ok raw /\
      Json.loads (Orchestrator.clean_plan raw) = Some (JArr (JObj d :: rest)) /\
      (dict_get d "tool" = None \/ dict_get d "tool" = Some JNull) /\
      Orchestrator.r_content r = dict_get_default d "response" (JStr "No response generated."))).
Proof.
  unfold Orchestrator.body, Orchestrator.planner_plan, Orchestrator.run_tools,
    bind, chat, emit, lift_res, ret, raise.
  intros E.
  destruct (w_chat w _ _) as [resolved|e]; [|discriminate].
  destruct (w_plan w (strip resolved) (w_tools_desc w)) as [raw|e] eqn:P; [|discriminate].
  destruct (Json.loads (Orchestrator.clean_plan raw)) as [plan|] eqn:L.
  2: { inversion E; subst. split; [reflexivity|]. left. eexists. reflexivity. }
  destruct plan as [| | | |items|d];
    try (destruct (w_chat w _ [("user", cmd)]); inversion E; subst;
         split; [reflexivity|left; eexists; reflexivity]).
  destruct items as [|p0 rest].
  { destruct (w_chat w _ [("user", cmd)]); inversion E; subst.
    split; [reflexivity|left; eexists; reflexivity]. }
  destruct p0 as [| | | | |d]; try discriminate.
  destruct (dict_get d "tool") as [t|] eqn:T.
  - destruct t;
      try (destruct (Executor.execute _ _ _) as [[results|e] tr1]; [|discriminate];
           destruct (Summarizer.summarize _ _ _ _) as [[rep|e] tr2]; [|discriminate];
           inversion E; subst; split; [reflexivity|left; eexists; reflexivity]).
    inversion E; subst. split; [reflexivity|].
    right. exists (strip resolved), raw, d, rest. auto.
  - inversion E; subst. split; [reflexivity|].
    right. exists (strip resolved), raw, d, rest. auto.
Qed.

(** C1 (as amended): [execute_query] never raises and always answers
    with type "text".  An exception of the pre-process, plan, execute or
    summarize sequence (the [try] body) is caught and turned into the
    response whose content is "**Agent Execution Error:** <message>" and
    which has no mode; when the body returns, its response is returned
    unchanged. *)
Theorem execute_query_total (w : world) (cmd : string) (tr : list event) :
  (exists r tr', Orchestrator.execute_query w cmd tr = (Ok r, tr') /\
     Orchestrator.r_type r = "text") /\
  (forall e tr', Orchestrator.body w cmd tr = (Raise e, tr') ->
     Orchestrator.execute_query w cmd tr =
       (Ok (Orchestrator.mk_response "text"
              (JStr ("**Agent Execution Error:** " ++ exn_msg e)) None), tr')) /\
  (forall r tr', Orchestrator.body w cmd tr = (Ok r, tr') ->
     Orchestrator.execute_query w cmd tr = (Ok r, tr')).
Proof.
  unfold Orchestrator.execute_query, try_except.
  split; [|split]; [| intros e tr' E; rewrite E; reflexivity
                    | intros r tr' E; rewrite E; reflexivity].
  destruct (Orchestrator.body w cmd tr) as [[r|e] tr'] eqn:E.
  - exists r, tr'. split; [reflexivity|]. exact (proj1 (body_result w cmd tr r tr' E)).
  - eexists; eexists. split; reflexivity.
Qed.

Lemma execute_query_total_witness :
  Orchestrator.execute_query
    (mk_world (fun _ _ => Raise (mk_exn "ClientError" "429 quota")) (fun _ _ => Ok "") "" [] "gemini")
    "hello" [] =
    (Ok (Orchestrator.mk_response "text"
           (JStr ("**Agent Execution Error:** " ++ exn_msg (mk_exn "ClientError" "429 quota"))) None),
     [EChat [("user", Orchestrator.ticker_prompt "hello")] "0.7"]).
Proof.
  apply (proj1 (proj2 (execute_query_total
    (mk_world (fun _ _ => Raise (mk_exn "ClientError" "429 quota")) (fun _ _ => Ok "") "" [] "gemini")
    "hello" []))).
  vm_compute. reflexivity.
Defined.

(** C1, counterexample: for the planner text [[{"tool":null,"response":null}]]
    the returned content is [None] (JSON null), not a string. *)
Lemma execute_query_null_content :
  fst (run (Orchestrator.execute_query (world_of_plan (no_tool_plan "null")) "hello")) =
    Ok (Orchestrator.mk_response "text" JNull None).
Proof. vm_compute. reflexivity. Qed.




(** *** The decoder and surrounding whitespace *)

Lemma ws_cases (c : ascii) :
  Json.is_ws c = true ->
  c = ascii_of_nat 32 \/ c = ascii_of_nat 9 \/ c = ascii_of_nat 10 \/ c = ascii_of_nat 13.
Proof.
  unfold Json.is_ws. intros H.
  rewrite <- (ascii_nat_embedding c).
  repeat rewrite orb_true_iff in H.
  destruct H as [[[H|H]|H]|H]; apply Nat.eqb_eq in H; rewrite H; auto.
Qed.

Lemma lit_text_not_ws (l : Json.lit) (pos : nat) (x : ascii) :
  nth_error (Json.lit_text l) pos = Some x -> Json.is_ws x = false.
Proof.
  intros H. apply nth_error_In in H.
  destruct l; simpl in H; repeat (destruct H as [<-|H]; [reflexivity|]); destruct H.
Qed.

(** Reading a whitespace character never changes what the decoder would
    return at end of input. *)
Lemma accept_step_ws (s : Json.pstate) (c : ascii) :
  Json.is_ws c = true -> Json.accept (Json.step s c) = Json.accept s.
Proof.
  intros Hc.
  destruct s as [st m].
  destruct m; unfold Json.step.
  - unfold Json.step_value. rewrite Hc. reflexivity.
  - rewrite Hc. reflexivity.
  - unfold Json.step_after. rewrite Hc. reflexivity.
  - rewrite Hc. reflexivity.
  - rewrite Hc. reflexivity.
  - rewrite Hc. reflexivity.
  - destruct (ws_cases c Hc) as [-> | [-> | [-> | ->]]];
      unfold Json.step_str; simpl; destruct st; reflexivity.
  - destruct (ws_cases c Hc) as [-> | [-> | [-> | ->]]]; simpl; destruct st; reflexivity.
  - destruct (ws_cases c Hc) as [-> | [-> | [-> | ->]]]; simpl; destruct st; reflexivity.
  - destruct (ws_cases c Hc) as [-> | [-> | [-> | ->]]];
      destruct ns; unfold Json.step_num, Json.finish_num, Json.complete;
      simpl; try reflexivity;
      destruct st as [|f r]; try destruct f; simpl; reflexivity.
  - destruct (nth_error (Json.lit_text l) pos) as [x|] eqn:N; [|destruct st; reflexivity].
    pose proof (lit_text_not_ws l pos x N) as Hx.
    destruct (Ascii.eqb_spec c x) as [->|_]; [congruence|].
    destruct st; reflexivity.
  - rewrite Hc. reflexivity.
  - destruct st; reflexivity.
Qed.

Lemma accept_run_ws (s : Json.pstate) (ws : list ascii) :
  Forall (fun c => Json.is_ws c = true) ws ->
  Json.accept (Json.run_chars s ws) = Json.accept s.
Proof.
  revert s. induction ws as [|c ws IH]; intros s H; [reflexivity|].
  inversion H; subst. unfold Json.run_chars. simpl.
  change (Json.accept (Json.run_chars (Json.step s c) ws) = Json.accept s).
  rewrite IH by assumption. apply accept_step_ws. assumption.
Qed.

Lemma run_init_ws (ws : list ascii) :
  Forall (fun c => Json.is_ws c = true) ws -> Json.run_chars Json.init ws = Json.init.
Proof.
  induction ws as [|c ws IH]; intros H; [reflexivity|].
  inversion H; subst. unfold Json.run_chars. simpl.
  unfold Json.step_value. rewrite H2. exact (IH H3).
Qed.

(** *** Only a document that opens with a bracket decodes to a list *)

Lemma bottom_arr_cons (f : Json.frame) (r : list Json.frame) :
  r <> [] -> bottom_arr (f :: r) = bottom_arr r.
Proof. destruct r; [congruence|reflexivity]. Qed.

Lemma bottom_arr_swap (f g : Json.frame) (r : list Json.frame) :
  frame_is_arr f = frame_is_arr g -> bottom_arr (f :: r) = bottom_arr (g :: r).
Proof. destruct r; [exact (fun H => H)|reflexivity]. Qed.

Lemma complete_free (st : list Json.frame) (v : json) :
  (st = [] -> is_arr v = false) ->
  (st <> [] -> bottom_arr st = false) ->
  arr_free (Json.complete st v) = true.
Proof.
  intros H1 H2. destruct st as [|f r].
  - simpl. rewrite H1 by reflexivity. reflexivity.
  - assert (B : bottom_arr (f :: r) = false) by (apply H2; discriminate).
    destruct f; simpl; try reflexivity.
    + rewrite (bottom_arr_swap _ (Json.FArr items)) by reflexivity. rewrite B. reflexivity.
    + rewrite (bottom_arr_swap _ (Json.FObjV pairs key)) by reflexivity. rewrite B. reflexivity.
Qed.

(** Closing the innermost container of a stack whose outermost
    container is an object. *)
Lemma close_free (f : Json.frame) (r : list Json.frame) (v : json) :
  negb (bottom_arr (f :: r)) = true ->
  (r = [] -> is_arr v = false) ->
  arr_free (Json.complete r v) = true.
Proof.
  intros B H. apply complete_free; [exact H|].
  intros Hr. rewrite <- (bottom_arr_cons f r Hr). destruct (bottom_arr (f :: r)); auto.
Qed.

Lemma step_after_free (st : list Json.frame) (c : ascii) :
  arr_free (st, Json.MAfter) = true -> arr_free (Json.step_after st c) = true.
Proof.
  intros H. unfold Json.step_after.
  destruct (Json.is_ws c); [exact H|].
  destruct st as [|f r]; [reflexivity|].
  destruct f; split_ifs; try exact H; try reflexivity.
  - apply (close_free (Json.FArr items)); [exact H|].
    intros ->. discriminate H.
  - apply (close_free (Json.FObj pairs)); [exact H|reflexivity].
Qed.

Lemma nonempty_free (st : list Json.frame) (m : Json.mode) :
  st <> [] -> arr_free (st, m) = negb (bottom_arr st).
Proof. destruct st; [congruence|reflexivity]. Qed.

Lemma step_value_free (st : list Json.frame) (c : ascii) :
  (st = [] -> Json.is_ws c = false /\ c <> "["%char) ->
  (st <> [] -> bottom_arr st = false) ->
  arr_free (Json.step_value st c) = true.
Proof.
  intros H1 H2. unfold Json.step_value.
  destruct st as [|f r].
  - destruct (H1 eq_refl) as [W L]. rewrite W.
    split_ifs; try reflexivity.
    match goal with E : (c =? "[")%char = true |- _ => apply Ascii.eqb_eq in E; congruence end.
  - assert (B : bottom_arr (f :: r) = false) by (apply H2; discriminate).
    split_ifs; try reflexivity; rewrite nonempty_free by discriminate;
      try (rewrite B; reflexivity);
      (rewrite bottom_arr_cons by discriminate; rewrite B; reflexivity).
Qed.

Lemma finish_num_free (st : list Json.frame) (lexeme : list ascii) (ns : Json.numst) (c : ascii) :
  arr_free (st, Json.MNum lexeme ns) = true -> arr_free (Json.finish_num st lexeme c) = true.
Proof.
  intros H. unfold Json.finish_num.
  assert (C : arr_free (Json.complete st (JNum (string_of_list_ascii (rev lexeme)))) = true).
  { apply complete_free; [reflexivity|].
    intros Hs. rewrite nonempty_free in H by exact Hs. destruct (bottom_arr st); auto. }
  destruct (Json.complete st _) as [st' m'].
  destruct m'; try reflexivity.
  - apply step_after_free. exact C.
  - destruct (Json.is_ws c); [exact C|reflexivity].
Qed.

Lemma step_free (s : Json.pstate) (c : ascii) :
  arr_free s = true -> arr_free (Json.step s c) = true.
Proof.
  destruct s as [st m]. intros H.
  assert (B : st <> [] -> bottom_arr st = false).
  { intros Hs. rewrite nonempty_free in H by exact Hs. destruct (bottom_arr st); auto. }
  destruct m; unfold Json.step.
  - apply step_value_free; [|exact B].
    intros ->. discriminate H.
  - split_ifs; try exact H.
    + destruct st as [|f r]; [reflexivity|].
      destruct f; try reflexivity.
      apply (close_free (Json.FArr items)); [exact H|].
      intros ->. discriminate H.
    + apply step_value_free; [|exact B].
      intros ->. discriminate H.
  - apply step_after_free. exact H.
  - split_ifs; try exact H; try reflexivity; try (destruct st; exact H).
    destruct st as [|f r]; [reflexivity|].
    destruct f; try reflexivity.
    apply (close_free (Json.FObj pairs)); [exact H|reflexivity].
  - split_ifs; try exact H; try reflexivity; destruct st; exact H.
  - split_ifs; try exact H; try reflexivity.
    destruct st as [|f r]; [reflexivity|].
    destruct f; try reflexivity.
    simpl. rewrite (bottom_arr_swap _ (Json.FObj pairs)) by reflexivity. exact H.
  - unfold Json.step_str. split_ifs; try reflexivity; try (destruct st; exact H).
    apply complete_free; [reflexivity|exact B].
  - destruct (Json.escape_char c); split_ifs; try reflexivity; destruct st; exact H.
  - destruct (Json.hex_digit c); split_ifs; try reflexivity; destruct st; exact H.
  - unfold Json.step_num.
    destruct ns; split_ifs; try reflexivity; try (destruct st; exact H);
      eapply finish_num_free; exact H.
  - destruct (nth_error (Json.lit_text l) pos); split_ifs; try reflexivity; try (destruct st; exact H).
    apply complete_free; [destruct l; reflexivity|exact B].
  - split_ifs; [exact H|reflexivity].
  - reflexivity.
Qed.

Lemma run_free (s : Json.pstate) (cs : list ascii) :
  arr_free s = true -> arr_free (Json.run_chars s cs) = true.
Proof.
  revert s. induction cs as [|c cs IH]; intros s H; [exact H|].
  unfold Json.run_chars. simpl. apply IH. apply step_free. exact H.
Qed.

Lemma free_accept (s : Json.pstate) (l : list json) :
  arr_free s = true -> Json.accept s <> Some (JArr l).
Proof.
  destruct s as [[|f r] m]; simpl; [|intros _; discriminate].
  destruct m; simpl; try (intros _; discriminate).
  - destruct (Json.num_accepting ns); discriminate.
  - destruct v; simpl; try discriminate.
Qed.

(** *** A list is finished only by its closing bracket *)

Lemma accept_complete (st : list Json.frame) (v x : json) :
  Json.accept (Json.complete st v) = Some x -> st = [] /\ x = v.
Proof.
  destruct st as [|f r]; simpl.
  - intros H. inversion H. auto.
  - destruct f; simpl; discriminate.
Qed.

Lemma step_after_arr (st : list Json.frame) (c : ascii) (l : list json) :
  Json.accept (Json.step_after st c) = Some (JArr l) -> c = "]"%char.
Proof.
  unfold Json.step_after.
  destruct (Json.is_ws c); [destruct st; discriminate|].
  destruct st as [|f r]; [discriminate|].
  destruct f; split_ifs; try discriminate.
  - intros _. apply Ascii.eqb_eq. assumption.
  - intros H. apply accept_complete in H. destruct H as [_ H]. discriminate H.
Qed.

Lemma step_value_arr (st : list Json.frame) (c : ascii) (l : list json) :
  Json.accept (Json.step_value st c) <> Some (JArr l).
Proof.
  unfold Json.step_value. split_ifs; destruct st; discriminate.
Qed.

Lemma step_arr (s : Json.pstate) (c : ascii) (l : list json) :
  Json.is_ws c = false -> Json.accept (Json.step s c) = Some (JArr l) -> c = "]"%char.
Proof.
  intros W. destruct s as [st m].
  destruct m; unfold Json.step.
  - intros H. exfalso. exact (step_value_arr st c l H).
  - rewrite W. split_ifs.
    + intros _. apply Ascii.eqb_eq. assumption.
    + intros H. exfalso. exact (step_value_arr st c l H).
  - apply step_after_arr.
  - rewrite W. split_ifs; try (destruct st; discriminate).
    destruct st as [|f r]; [discriminate|].
    destruct f; try discriminate.
    intros H. apply accept_complete in H. destruct H as [_ H]. discriminate H.
  - rewrite W. split_ifs; destruct st; discriminate.
  - rewrite W. split_ifs; try (destruct st; discriminate).
    destruct st as [|f r]; [discriminate|]. destruct f; discriminate.
  - unfold Json.step_str. split_ifs; try (destruct st; discriminate).
    intros H. apply accept_complete in H. destruct H as [_ H]. discriminate H.
  - destruct (Json.escape_char c); split_ifs; destruct st; discriminate.
  - destruct (Json.hex_digit c); split_ifs; destruct st; discriminate.
  - unfold Json.step_num.
    destruct ns; split_ifs; try (destruct st; discriminate);
      unfold Json.finish_num;
      destruct (Json.complete st _) as [st' m'] eqn:C;
      destruct m'; try discriminate;
      try (rewrite W; discriminate);
      apply step_after_arr.
  - destruct (nth_error (Json.lit_text l0) pos); split_ifs; try (destruct st; discriminate).
    intros H. apply accept_complete in H. destruct H as [_ H]. destruct l0; discriminate H.
  - rewrite W. discriminate.
  - discriminate.
Qed.

(** *** A decoded list is the text from its first [[] to its last []] *)

Lemma run_chars_app (s : Json.pstate) (a b : list ascii) :
  Json.run_chars s (app a b) = Json.run_chars (Json.run_chars s a) b.
Proof. unfold Json.run_chars. apply fold_left_app. Qed.

Lemma split_leading (cs : list ascii) (l : list json) :
  Json.accept (Json.run_chars Json.init cs) = Some (JArr l) ->
  exists ws r, cs = app ws ("["%char :: r) /\ Forall (fun c => Json.is_ws c = true) ws.
Proof.
  induction cs as [|c cs IH]; [discriminate|].
  intros H.
  destruct (Json.is_ws c) eqn:W.
  - unfold Json.run_chars in H. simpl in H. unfold Json.step_value in H. rewrite W in H.
    destruct (IH H) as [ws [r [E F]]].
    exists (c :: ws), r. split; [rewrite E; reflexivity|constructor; assumption].
  - destruct (Ascii.eqb_spec c "["%char) as [->|N].
    + exists [], cs. split; [reflexivity|constructor].
    + exfalso.
      assert (F : arr_free (Json.step Json.init c) = true).
      { apply step_value_free; [auto|congruence]. }
      apply (free_accept _ l (run_free _ cs F)).
      exact H.
Qed.

Lemma split_trailing (cs : list ascii) (s : Json.pstate) (l : list json) :
  Json.accept (Json.run_chars s cs) = Some (JArr l) ->
  Json.accept s = Some (JArr l) \/
  exists p ws, cs = app p ("]"%char :: ws) /\ Forall (fun c => Json.is_ws c = true) ws.
Proof.
  induction cs as [|b p IH] using rev_ind; [auto|].
  rewrite run_chars_app. unfold Json.run_chars at 1. simpl.
  change (fold_left Json.step p s) with (Json.run_chars s p).
  intros H.
  destruct (Json.is_ws b) eqn:W.
  - rewrite accept_step_ws in H by exact W.
    destruct (IH H) as [A|[p' [ws [E F]]]]; [left; exact A|].
    right. exists p', (app ws [b]). split.
    + rewrite E. rewrite <- app_assoc. reflexivity.
    + apply Forall_app. split; [exact F|constructor; [exact W|constructor]].
  - apply step_arr in H; [|exact W]. subst b.
    right. exists p, []. split; [reflexivity|constructor].
Qed.

Lemma ws_not_bracket (ws : list ascii) (b : ascii) (m : list ascii) :
  Forall (fun c => Json.is_ws c = true) (app ws (b :: m)) -> Json.is_ws b = true.
Proof.
  intros F. apply Forall_app in F. destruct F as [_ F]. inversion F. assumption.
Qed.

Lemma drop_to_lbr_ws (ws t : list ascii) :
  Forall (fun c => Json.is_ws c = true) ws ->
  Validator.drop_to_lbr (app ws ("["%char :: t)) = Some ("["%char :: t).
Proof.
  induction ws as [|c ws IH]; intros F; [reflexivity|].
  inversion F; subst. simpl.
  destruct (ws_cases c H1) as [-> | [-> | [-> | ->]]]; apply IH; assumption.
Qed.

Lemma upto_last_rbr_ws (ws : list ascii) :
  Forall (fun c => Json.is_ws c = true) ws -> Validator.upto_last_rbr ws = None.
Proof.
  induction ws as [|c ws IH]; intros F; [reflexivity|].
  inversion F; subst. simpl. rewrite IH by assumption.
  destruct (ws_cases c H1) as [-> | [-> | [-> | ->]]]; reflexivity.
Qed.

Lemma upto_last_rbr_app (y z : list ascii) :
  Validator.upto_last_rbr z = None ->
  Validator.upto_last_rbr (app y ("]"%char :: z)) = Some (app y ["]"%char]).
Proof.
  intros Z. induction y as [|c y IH]; simpl.
  - rewrite Z. reflexivity.
  - rewrite IH. reflexivity.
Qed.

(** The regular-expression search in [_extract_json] hands back to the
    decoder a text that decodes to the same list. *)
Lemma extract_json_loads (raw : string) (l : list json) :
  Json.loads raw = Some (JArr l) -> Validator.extract_json raw = JArr l.
Proof.
  unfold Json.loads. intros H.
  destruct (split_leading _ l H) as [ws1 [r [E1 F1]]].
  destruct (split_trailing _ Json.init l H) as [A|[p [ws2 [E2 F2]]]]; [discriminate A|].
  rewrite E1 in E2.
  destruct (app_eq_app _ _ _ _ E2) as [m [[P Q]|[P Q]]].
  - (* the closing bracket lies in the leading whitespace, or is the opener *)
    exfalso. destruct m as [|b m].
    + rewrite app_nil_r in P. subst p. simpl in Q. inversion Q.
    + simpl in Q. inversion Q. subst.
      pose proof (ws_not_bracket _ _ _ F1) as W. discriminate W.
  - destruct m as [|b m].
    + rewrite app_nil_r in P. subst p. simpl in Q. inversion Q.
    + simpl in Q. injection Q as Hb R. subst b.
      (* r = app m ("]" :: ws2) *)
      assert (Hs : Validator.search_array raw =
                   Some (string_of_list_ascii ("["%char :: app m ["]"%char]))).
      { unfold Validator.search_array. rewrite E1, drop_to_lbr_ws by exact F1.
        simpl. rewrite R, upto_last_rbr_app by (apply upto_last_rbr_ws; exact F2).
        reflexivity. }
      unfold Validator.extract_json. rewrite Hs.
      unfold Json.loads. rewrite list_ascii_of_string_of_list_ascii.
      rewrite E1, R in H.
      replace (app ws1 ("["%char :: app m ("]"%char :: ws2)))
        with (app ws1 (app ("["%char :: app m ["]"%char]) ws2)) in H
        by (simpl; rewrite <- app_assoc; reflexivity).
      rewrite !run_chars_app, run_init_ws in H by exact F1.
      rewrite accept_run_ws in H by exact F2.
      rewrite H. reflexivity.
Qed.

Lemma all_have_keys_true (steps : list json) :
  Forall (fun s => exists d, s = JObj d /\ dict_get d "tool" <> None /\
                             dict_get d "args" <> None) steps ->
  Validator.all_have_keys steps = Ok true.
Proof.
  induction steps as [|s r IH]; intros F; [reflexivity|].
  inversion F as [|? ? [d [-> [T A]]] F']; subst. simpl.
  destruct (dict_get d "tool"); [|congruence].
  destruct (dict_get d "args"); [|congruence].
  exact (IH F').
Qed.

(** C7 (as amended): if the raw plan is a JSON document (surrounding
    whitespace allowed) that decodes to a NON-EMPTY list whose elements
    are all objects carrying both a ["tool"] and an ["args"] key,
    [validate] returns exactly the decoded list (no argument value
    rewritten) and makes no model call: the trace is left as it was.  If
    it decodes to the empty list, the fast path refuses it: [validate]
    makes one model call, at temperature 0.0 with the validator prompt
    and the raw plan, and returns whatever that answer extracts to (an
    exception of the call propagates). *)
Theorem validate_fast_path (w : world) (raw : string) (steps : list json) (tr : list event) :
  Json.loads raw = Some (JArr steps) ->
  (steps <> [] ->
   Forall (fun s => exists d, s = JObj d /\ dict_get d "tool" <> None /\
                              dict_get d "args" <> None) steps ->
   Validator.validate w raw tr = (Ok (JArr steps), tr)) /\
  (steps = [] ->
   Validator.validate w raw tr =
     (match w_chat w (count_chats tr) [("system", Validator.VALIDATOR_PROMPT); ("user", raw)] with
      | Ok answer => Ok (Validator.extract_json answer)
      | Raise e => Raise e
      end,
      app tr [EChat [("system", Validator.VALIDATOR_PROMPT); ("user", raw)] "0.0"])).
Proof.
  intros L. split.
  - intros NE F.
    unfold Validator.validate, bind, ret, lift_res.
    rewrite (extract_json_loads raw steps L).
    destruct steps as [|s0 r]; [congruence|].
    cbn -[Validator.all_have_keys]. rewrite (all_have_keys_true (s0 :: r) F). reflexivity.
  - intros ->.
    unfold Validator.validate, bind, ret, lift_res, chat.
    rewrite (extract_json_loads raw [] L). simpl.
    destruct (w_chat _ _ _); reflexivity.
Qed.

Lemma validate_fast_path_witness :
  Validator.validate (world_of_plan "")
    (" [{" ++ quoted "tool" ++ ":" ++ quoted "echo" ++ "," ++
     quoted "args" ++ ":{" ++ quoted "msg" ++ ":" ++ quoted "hi" ++ "}}] ") [] =
    (Ok (JArr [JObj [("tool", JStr "echo"); ("args", JObj [("msg", JStr "hi")])]]), []) /\
  Validator.validate (world_of_plan "") " [ ] " [] =
    (match w_chat (world_of_plan "") (count_chats [])
             [("system", Validator.VALIDATOR_PROMPT); ("user", " [ ] ")] with
     | Ok answer => Ok (Validator.extract_json answer)
     | Raise e => Raise e
     end,
     app [] [EChat [("system", Validator.VALIDATOR_PROMPT); ("user", " [ ] ")] "0.0"]).
Proof.
  split.
  - apply (validate_fast_path (world_of_plan "")
             (" [{" ++ quoted "tool" ++ ":" ++ quoted "echo" ++ "," ++
              quoted "args" ++ ":{" ++ quoted "msg" ++ ":" ++ quoted "hi" ++ "}}] ")
             [JObj [("tool", JStr "echo"); ("args", JObj [("msg", JStr "hi")])]] []).
    + vm_compute. reflexivity.
    + discriminate.
    + constructor; [|constructor].
      eexists. split; [reflexivity|]. split; discriminate.
  - apply (validate_fast_path (world_of_plan "") " [ ] " [] []).
    + vm_compute. reflexivity.
    + reflexivity.
Defined.

(** C7, counterexample: the raw plan [[]] is a valid JSON array all of
    whose (zero) steps carry both keys, yet the fast path refuses it (its
    length test fails), the model is called, and what the model answers
    is returned instead. *)
Lemma validate_empty_array_calls_model :
  Json.loads "[]" = Some (JArr []) /\
  Validator.validate (mk_world (fun _ _ => Ok "[1]") (fun _ _ => Ok "") "" [] "gemini") "[]" [] =
    (Ok (JArr [JNum "1"]),
     [EChat [("system", Validator.VALIDATOR_PROMPT); ("user", "[]")] "0.0"]).
Proof. split; vm_compute; reflexivity. Qed.

(* ------------------------------------------------------------------ *)
(** ** Further properties: backend/core/executor.py *)

Lemma execute_latest_app (reg : registry) (p q : list json) :
  forall acc tr,
    execute_latest reg (app p q) acc tr =
    match execute_latest reg p acc tr with
    | (Ok r1, tr1) => execute_latest reg q r1 tr1
    | (Raise e, tr1) => (Raise e, tr1)
    end.
Proof.
  induction p as [|step p IH]; intros acc tr; simpl; [reflexivity|].
  unfold bind.
  destruct (Executor.execute_step reg (latest_result acc) step tr) as [[[r|]|e] tr']; auto.
Qed.

(** Running the plan [p ++ q] is running [p], then running [q] with the
    results of [p] already recorded and the last of them (the empty text
    when there is none) as the carry. *)
Theorem execute_app (reg : registry) (p q : list json) (tr : list event) :
  Executor.execute reg (JArr (app p q)) tr =
  match Executor.execute reg (JArr p) tr with
  | (Ok r1, tr1) => Executor.execute_loop reg q (last r1 "") r1 tr1
  | (Raise e, tr1) => (Raise e, tr1)
  end.
Proof.
  unfold Executor.execute.
  change "" with (latest_result []).
  rewrite !execute_loop_latest, execute_latest_app.
  destruct (execute_latest reg p [] tr) as [[r1|e] tr1]; [|reflexivity].
  rewrite <- execute_loop_latest. reflexivity.
Qed.

Lemma execute_loop_filter (reg : registry) (steps : list json) :
  forall lr acc tr,
    Executor.execute_loop reg steps lr acc tr =
    Executor.execute_loop reg (filter structurally_valid steps) lr acc tr.
Proof.
  induction steps as [|step steps IH]; intros lr acc tr; [reflexivity|].
  destruct (execute_step_shape reg lr step tr) as (o & tr1 & E & Hf & Ht).
  simpl. destruct (structurally_valid step) eqn:V.
  - simpl. unfold bind. rewrite E.
    destruct (Ht eq_refl) as [r ->]. apply IH.
  - unfold bind. rewrite E. destruct (Hf eq_refl) as [-> ->]. apply IH.
Qed.

(** Steps that [execute] skips (non-mappings, a missing, falsy or
    ["step"] tool) have no effect at all: removing them from the plan
    changes neither the results nor the calls made. *)
Theorem execute_drop_skipped (reg : registry) (steps : list json) (tr : list event) :
  Executor.execute reg (JArr steps) tr =
  Executor.execute reg (JArr (filter structurally_valid steps)) tr.
Proof. unfold Executor.execute. apply execute_loop_filter. Qed.

Lemma execute_step_calls (reg : registry) (lr : string) (step : json) (tr : list event) :
  exists o ext, Executor.execute_step reg lr step tr = (Ok o, app tr ext) /\
    Forall (fun e => is_tool_event e = true) ext /\
    length ext <= match o with Some _ => 1 | None => 0 end.
Proof.
  unfold Executor.execute_step.
  destruct step as [| | | |l|d];
    try (exists None, []; rewrite app_nil_r; split; [reflexivity|split; [constructor|simpl; lia]]).
  destruct (negb _ || _).
  { exists None, []; rewrite app_nil_r; split; [reflexivity|split; [constructor|simpl; lia]]. }
  destruct (Executor.find_tool reg _) as [m|].
  - unfold try_except, bind, Executor.invoke, emit, lift_res, ret.
    destruct (m _) as [r|e];
      (eexists; exists [ETool (py_str (dict_get_default d "tool" JNull))
                (Executor.process_args lr (dict_get_default d "args" (JObj [])))];
       split; [reflexivity|split; [repeat constructor|simpl; lia]]).
  - eexists. exists []. rewrite app_nil_r. split; [reflexivity|split; [constructor|simpl; lia]].
Qed.

Lemma execute_loop_calls (reg : registry) (steps : list json) :
  forall lr acc tr, exists results ext,
    Executor.execute_loop reg steps lr acc tr = (Ok results, app tr ext) /\
    Forall (fun e => is_tool_event e = true) ext /\
    length ext + length acc <= length results.
Proof.
  induction steps as [|step steps IH]; intros lr acc tr; simpl.
  - exists acc, []. rewrite app_nil_r. split; [reflexivity|split; [constructor|simpl; lia]].
  - destruct (execute_step_calls reg lr step tr) as (o & ext1 & E & F1 & L1).
    unfold bind. rewrite E.
    destruct o as [r|].
    + destruct (IH r (app acc [r]) (app tr ext1)) as (results & ext2 & E2 & F2 & L2).
      exists results, (app ext1 ext2). rewrite app_assoc.
      split; [exact E2|split; [apply Forall_app; auto|]].
      rewrite length_app in *. simpl in *. lia.
    + destruct (IH lr acc (app tr ext1)) as (results & ext2 & E2 & F2 & L2).
      exists results, (app ext1 ext2). rewrite app_assoc.
      split; [exact E2|split; [apply Forall_app; auto|]].
      rewrite length_app in *. simpl in *. lia.
Qed.

(** [execute] never raises, whatever the plan and the tools do, and its
    only effects are tool invocations: at most one per recorded result
    (a step naming an unknown tool records a result without any call). *)
Theorem execute_calls_at_most_one_tool_per_result (reg : registry) (plan : json) (tr : list event) :
  exists results ext,
    Executor.execute reg plan tr = (Ok results, app tr ext) /\
    Forall (fun e => is_tool_event e = true) ext /\
    length ext <= length results.
Proof.
  unfold Executor.execute. destruct plan as [| | | |steps|d];
    try (exists [Executor.invalid_plan_msg], []; rewrite app_nil_r;
         split; [reflexivity|split; [constructor|simpl; lia]]).
  destruct (execute_loop_calls reg steps "" [] tr) as (results & ext & E & F & L).
  exists results, ext. split; [exact E|split; [exact F|simpl in L; lia]].
Qed.

(** A step whose ["args"] entry is missing or is not a mapping (a
    string, a list, a number, null) calls its tool with no keyword
    arguments at all, and records what the tool returns or the error it
    raises. *)
Theorem execute_non_dict_args (reg : registry) (d : list (string * json)) (n : string)
  (m : handler) (tr : list event) :
  dict_get d "tool" = Some (JStr n) -> n <> "" -> n <> "step" ->
  Executor.find_in_instances reg n = Some m ->
  (forall a, dict_get d "args" = Some (JObj a) -> False) ->
  Executor.execute reg (JArr [JObj d]) tr =
    (Ok [match m [] with Ok r => r | Raise e => "Error executing " ++ n ++ ": " ++ exn_msg e end],
     app tr [ETool n []]).
Proof.
  intros T N1 N2 F A.
  unfold Executor.execute, Executor.execute_loop, Executor.execute_step, dict_get_default.
  rewrite T.
  assert (P : Executor.process_args "" match dict_get d "args" with
                                       | Some v => v | None => JObj [] end = []).
  { destruct (dict_get d "args") as [[| | | | |a]|]; try reflexivity.
    exfalso. exact (A a eq_refl). }
  unfold Executor.find_tool.
  destruct (String.eqb_spec n "") as [|_]; [contradiction|].
  destruct (String.eqb_spec n "step") as [|_]; [contradiction|].
  simpl. rewrite P, F.
  destruct (String.eqb_spec n "") as [|_]; [contradiction|].
  unfold try_except, bind, Executor.invoke, emit, lift_res, ret. simpl.
  destruct (m []); reflexivity.
Qed.

Lemma execute_non_dict_args_witness :
  Executor.execute echo_tools (JArr [JObj [("tool", JStr "echo"); ("args", JStr "hello")]]) [] =
    (Ok [match echo [] with Ok r => r | Raise e => "Error executing " ++ "echo" ++ ": " ++ exn_msg e end],
     app [] [ETool "echo" []]).
Proof.
  apply (execute_non_dict_args echo_tools _ "echo" echo []).
  - reflexivity.
  - discriminate.
  - discriminate.
  - reflexivity.
  - intros a H. discriminate H.
Defined.

(** The substitution keeps every key of the arguments, in order, and
    leaves the arguments untouched when no string value contains
    PREVIOUS_RESULT (non-string values are never rewritten). *)
Theorem process_args_preserves (last_result : string) (d : list (string * json)) :
  map fst (Executor.process_args last_result (JObj d)) = map fst d /\
  (Forall (fun kv => match snd kv with
                     | JStr s => contains Executor.PREVIOUS_RESULT s = false
                     | _ => True end) d ->
   Executor.process_args last_result (JObj d) = d).
Proof.
  unfold Executor.process_args. split.
  - induction d as [|[k v] d IH]; [reflexivity|]. simpl. rewrite IH.
    destruct v; try reflexivity. destruct (contains _ _); reflexivity.
  - induction d as [|[k v] d IH]; intros F; [reflexivity|].
    inversion F as [|? ? H F']; subst. simpl. rewrite (IH F').
    destruct v; try reflexivity. simpl in H. rewrite H. reflexivity.
Qed.

Lemma process_args_preserves_witness :
  Executor.process_args "X" (JObj [("q", JStr "AAPL"); ("n", JNum "3")]) =
    [("q", JStr "AAPL"); ("n", JNum "3")].
Proof.
  apply (proj2 (process_args_preserves "X" [("q", JStr "AAPL"); ("n", JNum "3")])).
  repeat constructor.
Defined.

(** When two providers define a method of the same name, the one of the
    provider registered first is the one [_find_tool] returns. *)
Theorem find_tool_first_provider (r1 r2 : registry) (p : string) (inst : instance)
  (n : string) (m : handler) :
  n <> "" ->
  Executor.find_in_instances r1 n = None ->
  Executor.find_method inst n = Some m ->
  Executor.find_tool (app r1 ((p, inst) :: r2)) (JStr n) = Some m.
Proof.
  intros N H1 H2. unfold Executor.find_tool.
  destruct (String.eqb_spec n "") as [|_]; [contradiction|].
  induction r1 as [|[q i] r1 IH]; simpl.
  - rewrite H2. reflexivity.
  - simpl in H1. destruct (Executor.find_method i n); [discriminate|]. exact (IH H1).
Qed.

Lemma find_tool_first_provider_witness :
  Executor.find_tool (app [("a", [("summary", fun _ => Ok "s")])]
                          (("b", [("echo", echo)]) :: [("c", [("echo", fun _ => Ok "shadowed")])]))
                     (JStr "echo") =
  Some echo.
Proof.
  apply (find_tool_first_provider [("a", [("summary", fun _ => Ok "s")])]
           [("c", [("echo", fun _ => Ok "shadowed")])] "b" _ "echo").
  - discriminate.
  - reflexivity.
  - reflexivity.
Defined.

(* ------------------------------------------------------------------ *)
(** ** Further properties: backend/core/summarizer.py *)

(** When every result starts with "Error executing" (in particular when
    there is none), [summarize] returns the fixed Spanish fallback and
    makes no model call. *)
Theorem summarize_all_failed (w : world) (task : string) (results : list string) (tr : list event) :
  Forall (fun r => startswith r "Error executing" = true) results ->
  Summarizer.summarize w task results tr = (Ok Summarizer.no_results_msg, tr).
Proof.
  intros F. unfold Summarizer.summarize.
  replace (filter (fun r => negb (startswith r "Error executing")) results) with (@nil string).
  - reflexivity.
  - induction F as [|r rs H F IH]; [reflexivity|]. simpl. rewrite H. exact IH.
Qed.

Lemma summarize_all_failed_witness :
  Summarizer.summarize (world_of_plan "") "price of AAPL"
    ["Error executing get_quote: timeout"; "Error executing get_news: 503"] [] =
  (Ok Summarizer.no_results_msg, []).
Proof.
  apply summarize_all_failed. repeat constructor.
Defined.

(** A result starting with "Error executing" has no influence: inserting
    one anywhere in the results changes neither the summary request nor
    its outcome (the remaining results keep their numbering). *)
Theorem summarize_ignores_failed_result (w : world) (task e : string) (a b : list string)
  (tr : list event) :
  startswith e "Error executing" = true ->
  Summarizer.summarize w task (app a (e :: b)) tr = Summarizer.summarize w task (app a b) tr.
Proof.
  intros H. unfold Summarizer.summarize.
  rewrite !filter_app. simpl. rewrite H. reflexivity.
Qed.

Lemma summarize_ignores_failed_result_witness :
  Summarizer.summarize (world_of_plan "") "news" (app ["AAPL 190"] ("Error executing get_news: 503" :: ["MSFT 410"])) [] =
  Summarizer.summarize (world_of_plan "") "news" (app ["AAPL 190"] ["MSFT 410"]) [].
Proof.
  apply summarize_ignores_failed_result. reflexivity.
Defined.

(* ------------------------------------------------------------------ *)
(** ** Further properties: backend/core/agent_orchestrator.py *)









(* ------------------------------------------------------------------ *)
(** ** Further properties: core/validator.py *)

(** *** A text that opens with a bracket decodes to a list, or fails *)

Lemma arr_only_nonempty (st : list Json.frame) (m : Json.mode) :
  st <> [] -> arr_only (st, m) = bottom_arr st.
Proof. destruct st; [congruence|reflexivity]. Qed.

Lemma complete_only (st : list Json.frame) (v : json) :
  (st = [] -> is_arr v = true) ->
  (st <> [] -> bottom_arr st = true) ->
  arr_only (Json.complete st v) = true.
Proof.
  intros H1 H2. destruct st as [|f r].
  - simpl. apply H1. reflexivity.
  - assert (B : bottom_arr (f :: r) = true) by (apply H2; discriminate).
    destruct f; simpl; try reflexivity.
    + rewrite (bottom_arr_swap _ (Json.FArr items)) by reflexivity. exact B.
    + rewrite (bottom_arr_swap _ (Json.FObjV pairs key)) by reflexivity. exact B.
Qed.

Lemma close_only (f : Json.frame) (r : list Json.frame) (v : json) :
  bottom_arr (f :: r) = true ->
  (r = [] -> is_arr v = true) ->
  arr_only (Json.complete r v) = true.
Proof.
  intros B H. apply complete_only; [exact H|].
  intros Hr. rewrite <- (bottom_arr_cons f r Hr). exact B.
Qed.

Lemma step_after_only (st : list Json.frame) (c : ascii) :
  arr_only (st, Json.MAfter) = true -> arr_only (Json.step_after st c) = true.
Proof.
  intros H. unfold Json.step_after.
  destruct (Json.is_ws c); [exact H|].
  destruct st as [|f r]; [reflexivity|].
  destruct f; split_ifs; try exact H; try reflexivity.
  - apply (close_only (Json.FArr items)); [exact H|reflexivity].
  - apply (close_only (Json.FObj pairs)); [exact H|].
    intros ->. discriminate H.
Qed.

Lemma step_value_only (st : list Json.frame) (c : ascii) :
  st <> [] -> bottom_arr st = true -> arr_only (Json.step_value st c) = true.
Proof.
  intros N B. unfold Json.step_value.
  destruct st as [|f r]; [congruence|].
  split_ifs; try reflexivity; rewrite arr_only_nonempty by discriminate;
    try exact B; (rewrite bottom_arr_cons by discriminate; exact B).
Qed.

Lemma finish_num_only (st : list Json.frame) (lexeme : list ascii) (ns : Json.numst) (c : ascii) :
  arr_only (st, Json.MNum lexeme ns) = true -> arr_only (Json.finish_num st lexeme c) = true.
Proof.
  intros H. unfold Json.finish_num.
  destruct st as [|f r]; [discriminate H|].
  assert (C : arr_only (Json.complete (f :: r) (JNum (string_of_list_ascii (rev lexeme)))) = true).
  { apply complete_only; [discriminate|intros _; exact H]. }
  destruct (Json.complete (f :: r) _) as [st' m'].
  destruct m'; try reflexivity.
  - apply step_after_only. exact C.
  - destruct (Json.is_ws c); [exact C|reflexivity].
Qed.

Lemma step_only (s : Json.pstate) (c : ascii) :
  arr_only s = true -> arr_only (Json.step s c) = true.
Proof.
  destruct s as [[|f r] m]; intros H.
  - destruct m; try discriminate H; unfold Json.step.
    + destruct (Json.is_ws c); [exact H|reflexivity].
    + reflexivity.
  - assert (B : bottom_arr (f :: r) = true) by exact H.
    set (st := f :: r) in *.
    assert (N : st <> []) by discriminate.
    destruct m; unfold Json.step.
    + apply step_value_only; assumption.
    + split_ifs; try exact H.
      * unfold st. destruct f; try reflexivity.
        apply (close_only (Json.FArr items)); [exact B|reflexivity].
      * apply step_value_only; assumption.
    + apply step_after_only. exact H.
    + split_ifs; try exact H; try reflexivity.
      unfold st. destruct f; try reflexivity.
      apply (close_only (Json.FObj pairs)); [exact B|].
      intros ->. discriminate B.
    + split_ifs; try exact H; try reflexivity.
    + split_ifs; try exact H; try reflexivity.
      unfold st. destruct f; try reflexivity.
      simpl. rewrite (bottom_arr_swap _ (Json.FObj pairs)) by reflexivity. exact B.
    + unfold Json.step_str. split_ifs; try reflexivity; try exact H.
      apply complete_only; [congruence|intros _; exact B].
    + destruct (Json.escape_char c); split_ifs; try reflexivity; exact H.
    + destruct (Json.hex_digit c); split_ifs; try reflexivity; exact H.
    + unfold Json.step_num.
      destruct ns; split_ifs; try reflexivity; try exact H;
        eapply finish_num_only; exact H.
    + destruct (nth_error (Json.lit_text l) pos); split_ifs; try reflexivity; try exact H.
      apply complete_only; [congruence|intros _; exact B].
    + split_ifs; [exact H|reflexivity].
    + reflexivity.
Qed.

Lemma run_only (s : Json.pstate) (cs : list ascii) :
  arr_only s = true -> arr_only (Json.run_chars s cs) = true.
Proof.
  revert s. induction cs as [|c cs IH]; intros s H; [exact H|].
  unfold Json.run_chars. simpl. apply IH. apply step_only. exact H.
Qed.

Lemma only_accept (s : Json.pstate) (v : json) :
  arr_only s = true -> Json.accept s = Some v -> is_arr v = true.
Proof.
  destruct s as [[|f r] m]; simpl; [|discriminate].
  destruct m; simpl; try discriminate.
  intros H E. inversion E. subst. exact H.
Qed.

Lemma loads_bracket_is_list (t : list ascii) (v : json) :
  Json.accept (Json.run_chars Json.init ("["%char :: t)) = Some v -> is_arr v = true.
Proof.
  apply only_accept. unfold Json.run_chars. simpl.
  apply run_only. reflexivity.
Qed.

Lemma drop_to_lbr_head (cs t : list ascii) :
  Validator.drop_to_lbr cs = Some t -> exists t', t = "["%char :: t'.
Proof.
  induction cs as [|c cs IH]; simpl; [discriminate|].
  destruct (Ascii.eqb_spec c "["%char) as [->|_]; [|exact IH].
  intros H. inversion H. eauto.
Qed.

(** [_extract_json] returns a list whatever the text: the matched text
    starts with a bracket, so [json.loads] yields a list or fails. *)
Lemma extract_json_is_list (text : string) : is_arr (Validator.extract_json text) = true.
Proof.
  unfold Validator.extract_json, Validator.search_array.
  destruct (Validator.drop_to_lbr (list_ascii_of_string text)) as [t|] eqn:D; [|reflexivity].
  destruct (drop_to_lbr_head _ _ D) as [t' ->].
  simpl. destruct (Validator.upto_last_rbr t') as [u|]; [|reflexivity].
  simpl. unfold Json.loads.
  change (list_ascii_of_string (String "[" (string_of_list_ascii u)))
    with ("["%char :: list_ascii_of_string (string_of_list_ascii u)).
  rewrite list_ascii_of_string_of_list_ascii.
  destruct (Json.accept (Json.run_chars Json.init ("["%char :: u))) as [v|] eqn:A; [|reflexivity].
  exact (loads_bracket_is_list u v A).
Qed.

(** Whatever the raw plan and whatever the model answers, [validate]
    never returns a dict, a string or a number: a value it returns is
    always a list (possibly empty). *)
Theorem validate_returns_list (w : world) (raw : string) (tr : list event) :
  match fst (Validator.validate w raw tr) with
  | Ok v => is_arr v = true
  | Raise _ => True
  end.
Proof.
  unfold Validator.validate, bind, ret, lift_res, chat.
  pose proof (extract_json_is_list raw) as X.
  destruct (Validator.extract_json raw) as [| | | |steps|d]; try discriminate X.
  destruct (py_truthy (JArr steps) && Nat.ltb 0 (length steps)).
  - destruct (Validator.all_have_keys steps) as [[|]|e]; simpl; try exact I.
    + reflexivity.
    + destruct (w_chat _ _ _); simpl; [apply extract_json_is_list|exact I].
  - destruct (w_chat _ _ _); simpl; [apply extract_json_is_list|exact I].
Qed.

(** *** The fast path through surrounding prose *)

Lemma list_ascii_of_string_app (a b : string) :
  list_ascii_of_string (a ++ b) = app (list_ascii_of_string a) (list_ascii_of_string b).
Proof. induction a as [|c a IH]; simpl; [reflexivity|rewrite IH; reflexivity]. Qed.

(** The text of a decoded list: whitespace, the bracketed text, whitespace. *)
Lemma loads_list_core (raw : string) (l : list json) :
  Json.loads raw = Some (JArr l) ->
  exists ws1 x ws2,
    list_ascii_of_string raw = app ws1 ("["%char :: app x ("]"%char :: ws2)) /\
    Forall (fun c => Json.is_ws c = true) ws1 /\
    Forall (fun c => Json.is_ws c = true) ws2 /\
    Json.accept (Json.run_chars Json.init ("["%char :: app x ["]"%char])) = Some (JArr l).
Proof.
  unfold Json.loads. intros H.
  destruct (split_leading _ l H) as [ws1 [r [E1 F1]]].
  destruct (split_trailing _ Json.init l H) as [A|[p [ws2 [E2 F2]]]]; [discriminate A|].
  rewrite E1 in E2.
  destruct (app_eq_app _ _ _ _ E2) as [m [[P Q]|[P Q]]].
  - exfalso. destruct m as [|b m].
    + rewrite app_nil_r in P. subst p. simpl in Q. inversion Q.
    + simpl in Q. inversion Q. subst.
      pose proof (ws_not_bracket _ _ _ F1) as W. discriminate W.
  - destruct m as [|b m].
    + rewrite app_nil_r in P. subst p. simpl in Q. inversion Q.
    + simpl in Q. injection Q as Hb R. subst b.
      exists ws1, m, ws2. rewrite E1, R.
      split; [reflexivity|split; [exact F1|split; [exact F2|]]].
      rewrite E1, R in H.
      replace (app ws1 ("["%char :: app m ("]"%char :: ws2)))
        with (app ws1 (app ("["%char :: app m ["]"%char]) ws2)) in H
        by (simpl; rewrite <- app_assoc; reflexivity).
      rewrite !run_chars_app, run_init_ws in H by exact F1.
      rewrite accept_run_ws in H by exact F2.
      exact H.
Qed.

Lemma drop_to_lbr_skip (p t : list ascii) :
  (forall c, In c p -> c <> "["%char) ->
  Validator.drop_to_lbr (app p ("["%char :: t)) = Some ("["%char :: t).
Proof.
  induction p as [|c p IH]; intros F; [reflexivity|].
  simpl. destruct (Ascii.eqb_spec c "["%char) as [E|_].
  - exfalso. exact (F c (or_introl eq_refl) E).
  - apply IH. intros x Hx. exact (F x (or_intror Hx)).
Qed.

Lemma drop_to_lbr_none (p : list ascii) :
  (forall c, In c p -> c <> "["%char) -> Validator.drop_to_lbr p = None.
Proof.
  induction p as [|c p IH]; intros F; [reflexivity|].
  simpl. destruct (Ascii.eqb_spec c "["%char) as [E|_].
  - exfalso. exact (F c (or_introl eq_refl) E).
  - apply IH. intros x Hx. exact (F x (or_intror Hx)).
Qed.

Lemma upto_last_rbr_none (cs : list ascii) :
  (forall c, In c cs -> c <> "]"%char) -> Validator.upto_last_rbr cs = None.
Proof.
  induction cs as [|c cs IH]; intros F; [reflexivity|].
  simpl. rewrite IH by (intros x Hx; exact (F x (or_intror Hx))).
  destruct (Ascii.eqb_spec c "]"%char) as [E|_]; [|reflexivity].
  exfalso. exact (F c (or_introl eq_refl) E).
Qed.

Lemma ws_no_char (ws : list ascii) (b : ascii) :
  Json.is_ws b = false -> Forall (fun c => Json.is_ws c = true) ws -> forall c, In c ws -> c <> b.
Proof.
  intros W F c Hc ->. rewrite Forall_forall in F. rewrite (F b Hc) in W. discriminate W.
Qed.

Lemma extract_json_in_text (pre raw suf : string) (l : list json) :
  Json.loads raw = Some (JArr l) ->
  (forall c, In c (list_ascii_of_string pre) -> c <> "["%char) ->
  (forall c, In c (list_ascii_of_string suf) -> c <> "]"%char) ->
  Validator.extract_json (pre ++ raw ++ suf) = JArr l.
Proof.
  intros L P S.
  destruct (loads_list_core raw l L) as (ws1 & x & ws2 & E & F1 & F2 & A).
  assert (Hs : Validator.search_array (pre ++ raw ++ suf) =
               Some (string_of_list_ascii ("["%char :: app x ["]"%char]))).
  { unfold Validator.search_array.
    rewrite !list_ascii_of_string_app, E.
    replace (app (list_ascii_of_string pre)
               (app (app ws1 ("["%char :: app x ("]"%char :: ws2))) (list_ascii_of_string suf)))
      with (app (app (list_ascii_of_string pre) ws1)
               ("["%char :: app x ("]"%char :: app ws2 (list_ascii_of_string suf))))
      by (rewrite <- !app_assoc; simpl; rewrite <- app_assoc; reflexivity).
    rewrite drop_to_lbr_skip.
    - simpl.
      rewrite upto_last_rbr_app; [reflexivity|].
      apply upto_last_rbr_none. intros c Hc. apply in_app_or in Hc. destruct Hc as [Hc|Hc].
      + exact (ws_no_char ws2 "]"%char eq_refl F2 c Hc).
      + exact (S c Hc).
    - intros c Hc. apply in_app_or in Hc. destruct Hc as [Hc|Hc].
      + exact (P c Hc).
      + exact (ws_no_char ws1 "["%char eq_refl F1 c Hc). }
  unfold Validator.extract_json. rewrite Hs.
  unfold Json.loads. rewrite list_ascii_of_string_of_list_ascii, A. reflexivity.
Qed.

Lemma all_have_keys_py_in (steps : list json) :
  Forall (fun s => Validator.py_in s "tool" = Ok true /\ Validator.py_in s "args" = Ok true) steps ->
  Validator.all_have_keys steps = Ok true.
Proof.
  induction steps as [|s r IH]; intros F; [reflexivity|].
  inversion F as [|? ? [T A] F']; subst. simpl. rewrite T, A. exact (IH F').
Qed.

(** The fast path finds the plan inside surrounding prose (text before it
    without a [[], after it without a []]) and accepts any non-empty list
    whose elements pass Python's [in] test for both "tool" and "args":
    mappings with both keys, but also strings containing both words or
    lists containing both strings.  Such a list is returned as decoded,
    with no model call. *)
Theorem validate_fast_path_in_text (w : world) (pre raw suf : string) (steps : list json)
  (tr : list event) :
  Json.loads raw = Some (JArr steps) ->
  steps <> [] ->
  (forall c, In c (list_ascii_of_string pre) -> c <> "["%char) ->
  (forall c, In c (list_ascii_of_string suf) -> c <> "]"%char) ->
  Forall (fun s => Validator.py_in s "tool" = Ok true /\ Validator.py_in s "args" = Ok true) steps ->
  Validator.validate w (pre ++ raw ++ suf) tr = (Ok (JArr steps), tr).
Proof.
  intros L NE P S F.
  unfold Validator.validate, bind, ret, lift_res.
  rewrite (extract_json_in_text pre raw suf steps L P S).
  destruct steps as [|s0 r]; [congruence|].
  cbn -[Validator.all_have_keys]. rewrite (all_have_keys_py_in (s0 :: r) F). reflexivity.
Qed.

Lemma validate_fast_path_in_text_witness :
  Validator.validate (world_of_plan "") ("Plan: " ++ ("[" ++ quoted "tool args" ++ "]") ++ " Done.") [] =
    (Ok (JArr [JStr "tool args"]), []).
Proof.
  apply validate_fast_path_in_text.
  - vm_compute. reflexivity.
  - discriminate.
  - simpl. intros c H. repeat (destruct H as [<-|H]; [discriminate|]). destruct H.
  - simpl. intros c H. repeat (destruct H as [<-|H]; [discriminate|]). destruct H.
  - repeat constructor.
Defined.

(** A decoded plan whose first element is null, a boolean or a number
    makes the fast path's [in] test raise [TypeError], which [validate]
    does not catch: no model call is made and nothing is returned. *)
Theorem validate_non_iterable_step (w : world) (raw : string) (s0 : json) (rest : list json)
  (tr : list event) :
  Json.loads raw = Some (JArr (s0 :: rest)) ->
  (s0 = JNull \/ (exists b, s0 = JBool b) \/ (exists x, s0 = JNum x)) ->
  Validator.validate w raw tr =
    (Raise (mk_exn "TypeError" ("argument of type '" ++ py_type_name s0 ++ "' is not iterable")), tr).
Proof.
  intros L K.
  unfold Validator.validate, bind, ret, lift_res.
  rewrite (extract_json_loads raw (s0 :: rest) L).
  destruct K as [->|[[b ->]|[x ->]]]; reflexivity.
Qed.

Lemma validate_non_iterable_step_witness :
  Validator.validate (world_of_plan "") "[1, {}]" [] =
    (Raise (mk_exn "TypeError" ("argument of type '" ++ py_type_name (JNum "1") ++ "' is not iterable")), []).
Proof.
  apply (validate_non_iterable_step (world_of_plan "") "[1, {}]" (JNum "1") [JObj []]).
  - vm_compute. reflexivity.
  - right. right. eexists. reflexivity.
Defined.

(** A raw plan without any [[] always goes to the model, once, at
    temperature 0.0, with the validator prompt and the raw plan; the
    result is what the answer extracts to (the empty list when the
    answer has no bracketed list either). *)
Theorem validate_no_bracket (w : world) (raw : string) (tr : list event) :
  (forall c, In c (list_ascii_of_string raw) -> c <> "["%char) ->
  Validator.validate w raw tr =
    (match w_chat w (count_chats tr) [("system", Validator.VALIDATOR_PROMPT); ("user", raw)] with
     | Ok answer => Ok (Validator.extract_json answer)
     | Raise e => Raise e
     end,
     app tr [EChat [("system", Validator.VALIDATOR_PROMPT); ("user", raw)] "0.0"]).
Proof.
  intros P.
  assert (X : Validator.extract_json raw = JArr []).
  { unfold Validator.extract_json, Validator.search_array.
    rewrite (drop_to_lbr_none _ P). reflexivity. }
  unfold Validator.validate, bind, ret, lift_res, chat. rewrite X. simpl.
  destruct (w_chat _ _ _); reflexivity.
Qed.

Lemma validate_no_bracket_witness :
  Validator.validate (world_of_plan "") "just answer: 42" [] =
    (Ok (JArr []),
     app [] [EChat [("system", Validator.VALIDATOR_PROMPT); ("user", "just answer: 42")] "0.0"]).
Proof.
  apply (validate_no_bracket (world_of_plan "") "just answer: 42").
  simpl. intros c H. repeat (destruct H as [<-|H]; [discriminate|]). destruct H.
Defined.

(* ------------------------------------------------------------------ *)
(** ** core/executor.py *)

Lemma core_loop_app (sess : CoreExecutor.session) (p q : list json) :
  forall lr acc tr, lr = last acc (JStr "") ->
  CoreExecutor.execute_loop sess (app p q) lr acc tr =
    match CoreExecutor.execute_loop sess p lr acc tr with
    | (Ok r1, tr1) => CoreExecutor.execute_loop sess q (last r1 (JStr "")) r1 tr1
    | (Raise e, tr1) => (Raise e, tr1)
    end.
Proof.
  induction p as [|s p IH]; intros lr acc tr H; simpl.
  - unfold ret. rewrite H. reflexivity.
  - unfold bind. destruct (CoreExecutor.execute_step sess lr s tr) as [[r|e] tr1]; [|reflexivity].
    apply IH. rewrite last_last. reflexivity.
Qed.

Lemma core_execute_app_helper (sess : CoreExecutor.session) (p q : list json) (tr : list event) :
  CoreExecutor.execute sess (app p q) tr =
    match CoreExecutor.execute sess p tr with
    | (Ok r1, tr1) => CoreExecutor.execute_loop sess q (last r1 (JStr "")) r1 tr1
    | (Raise e, tr1) => (Raise e, tr1)
    end.
Proof. unfold CoreExecutor.execute. apply core_loop_app. reflexivity. Qed.

(** Running [p ++ q] is running [p], then [q] from where [p] stopped: the
    results of [p] come first and the carry is the last result of [p]
    (the empty string when [p] is empty); if [p] raises, [q] never runs. *)
Theorem core_execute_app (sess : CoreExecutor.session) (p q : list json) (tr : list event) :
  CoreExecutor.execute sess (app p q) tr =
    match CoreExecutor.execute sess p tr with
    | (Ok r1, tr1) => CoreExecutor.execute_loop sess q (last r1 (JStr "")) r1 tr1
    | (Raise e, tr1) => (Raise e, tr1)
    end.
Proof. exact (core_execute_app_helper sess p q tr). Qed.

Lemma core_step_not_mapping (sess : CoreExecutor.session) (lr step : json) (tr : list event) :
  (forall d, step <> JObj d) ->
  CoreExecutor.execute_step sess lr step tr = (Raise (CoreExecutor.no_attr step "get"), tr).
Proof.
  intros H. destruct step as [| | | | |d]; try reflexivity. exfalso. exact (H d eq_refl).
Qed.

Lemma core_step_args_not_mapping (sess : CoreExecutor.session) (lr : json)
  (d : list (string * json)) (args : json) (tr : list event) :
  core_no_tool (dict_get_default d "tool" JNull) = false ->
  dict_get d "args" = Some args ->
  (forall a, args <> JObj a) ->
  CoreExecutor.execute_step sess lr (JObj d) tr = (Raise (CoreExecutor.no_attr args "items"), tr).
Proof.
  intros T A N. unfold CoreExecutor.execute_step.
  unfold core_no_tool in T. rewrite T.
  assert (A' : dict_get_default d "args" (JObj []) = args)
    by (unfold dict_get_default; rewrite A; reflexivity).
  rewrite A'.
  destruct args as [| | | | |a]; try reflexivity. exfalso. exact (N a eq_refl).
Qed.

(** A step that is not a mapping raises [AttributeError] at [step.get],
    and a tool step whose ["args"] is present but not a mapping raises it
    at [tool_args.items()], before the session is called.  Nothing
    catches it: [execute] raises, the results of the earlier steps are
    lost and the later steps never run. *)
Theorem core_execute_aborts (sess : CoreExecutor.session) (p q : list json) (s : json)
  (e : exn) (tr tr1 : list event) (r1 : list json) :
  CoreExecutor.execute sess p tr = (Ok r1, tr1) ->
  ((forall d, s <> JObj d) /\ e = CoreExecutor.no_attr s "get") \/
  (exists d args, s = JObj d /\ core_no_tool (dict_get_default d "tool" JNull) = false /\
     dict_get d "args" = Some args /\ (forall a, args <> JObj a) /\
     e = CoreExecutor.no_attr args "items") ->
  CoreExecutor.execute sess (app p (s :: q)) tr = (Raise e, tr1).
Proof.
  intros E B. rewrite core_execute_app_helper, E. simpl. unfold bind.
  destruct B as [[N ->]|(d & args & -> & T & A & N & ->)].
  - rewrite (core_step_not_mapping sess _ s tr1 N). reflexivity.
  - rewrite (core_step_args_not_mapping sess _ d args tr1 T A N). reflexivity.
Qed.

Lemma core_execute_aborts_witness :
  CoreExecutor.execute (fun _ _ => Ok [Some "ok"])
    (app [JObj [("tool", JStr "search"); ("args", JObj [])]]
         (JObj [("tool", JStr "read_file"); ("args", JArr [JStr "a.txt"])] :: [JObj [("response", JStr "done")]]))
    [] =
    (Raise (CoreExecutor.no_attr (JArr [JStr "a.txt"]) "items"), [ETool "search" []]).
Proof.
  apply (core_execute_aborts _ _ _ _ _ [] [ETool "search" []] [JStr "ok"]).
  - reflexivity.
  - right. eexists; exists (JArr [JStr "a.txt"]).
    split; [reflexivity|split; [reflexivity|split; [reflexivity|split; [intros a H; discriminate H|reflexivity]]]].
Defined.

(** A tool step (a mapping step whose tool name is a string other than
    "null", with mapping arguments) calls the session once, with the
    injected arguments, and never raises: the result is the concatenated
    text items, or "Error: <message>" when the call fails.  Stated for a
    string carry (the result of any earlier tool step is one). *)
Theorem core_execute_tool_step (sess : CoreExecutor.session) (last : string) (n : string)
  (d a : list (string * json)) (tr : list event) :
  dict_get_default d "tool" JNull = JStr n ->
  n <> "null" ->
  dict_get_default d "args" (JObj []) = JObj a ->
  CoreExecutor.execute_step sess (JStr last) (JObj d) tr =
    (Ok (match sess (JStr n) (CoreExecutor.inject (JStr last) a) with
         | Ok content => JStr (CoreExecutor.join_texts content)
         | Raise e => JStr ("Error: " ++ exn_msg e)
         end),
     app tr [ETool n (CoreExecutor.inject (JStr last) a)]).
Proof.
  intros T N A. unfold CoreExecutor.execute_step.
  rewrite T, A. apply String.eqb_neq in N. rewrite N.
  unfold try_except, emit, bind, lift_res, ret.
  destruct (sess _ _); reflexivity.
Qed.

Lemma core_execute_tool_step_witness :
  CoreExecutor.execute_step (fun _ _ => Raise (mk_exn "McpError" "boom")) (JStr "x")
    (JObj [("tool", JStr "read_file"); ("args", JObj [("path", JStr "PREVIOUS_RESULT")])]) [] =
    (Ok (JStr ("Error: " ++ exn_msg (mk_exn "McpError" "boom"))),
     app [] [ETool "read_file" [("path", JStr ("Content from previous step:" ++ nl ++ "x"))]]).
Proof.
  rewrite (core_execute_tool_step (fun _ _ => Raise (mk_exn "McpError" "boom")) "x" "read_file"
             [("tool", JStr "read_file"); ("args", JObj [("path", JStr "PREVIOUS_RESULT")])]
             [("path", JStr "PREVIOUS_RESULT")] [] eq_refl ltac:(discriminate) eq_refl).
  reflexivity.
Defined.

Lemma core_inject_get (lr : json) (a : list (string * json)) (k : string) :
  dict_get (CoreExecutor.inject lr a) k =
    option_map (fun v => if CoreExecutor.is_token v
                         then JStr ("Content from previous step:" ++ nl ++ py_str lr) else v)
               (dict_get a k).
Proof.
  induction a as [|[k' v] r IH]; [reflexivity|].
  simpl. destruct (CoreExecutor.is_token v) eqn:T; simpl; destruct (String.eqb k k'); simpl;
    rewrite ?T; auto.
Qed.

(** The injection keeps the keys of the arguments in order; with a string
    carry [last], a value equal to "PREVIOUS_RESULT" becomes "Content from
    previous step:\n" followed by [last], and every other value,
    including a string that merely contains "PREVIOUS_RESULT", is passed
    unchanged. *)
Theorem core_inject_exact_match (last : string) (a : list (string * json)) (k : string) (v : json) :
  map fst (CoreExecutor.inject (JStr last) a) = map fst a /\
  (dict_get a k = Some (JStr "PREVIOUS_RESULT") ->
   dict_get (CoreExecutor.inject (JStr last) a) k =
     Some (JStr ("Content from previous step:" ++ nl ++ last))) /\
  (dict_get a k = Some v -> v <> JStr "PREVIOUS_RESULT" ->
   dict_get (CoreExecutor.inject (JStr last) a) k = Some v).
Proof.
  split; [|split].
  - induction a as [|[k' v'] r IH]; [reflexivity|].
    simpl. destruct (CoreExecutor.is_token v'); simpl; rewrite IH; reflexivity.
  - intros H. rewrite core_inject_get, H. reflexivity.
  - intros H N. rewrite core_inject_get, H. simpl.
    destruct v as [| | |s| |]; try reflexivity.
    unfold CoreExecutor.is_token, CoreExecutor.PREVIOUS_RESULT.
    destruct (String.eqb_spec s "PREVIOUS_RESULT") as [->|_]; [congruence|reflexivity].
Qed.

Lemma core_inject_exact_match_witness :
  dict_get (CoreExecutor.inject (JStr "x") [("q", JStr "see PREVIOUS_RESULT")]) "q" =
    Some (JStr "see PREVIOUS_RESULT").
Proof.
  apply (core_inject_exact_match "x" [("q", JStr "see PREVIOUS_RESULT")] "q"
           (JStr "see PREVIOUS_RESULT")).
  - reflexivity.
  - discriminate.
Defined.

Lemma core_step_ok (sess : CoreExecutor.session) (lr : json) (d a : list (string * json))
  (tr : list event) :
  dict_get_default d "args" (JObj []) = JObj a ->
  exists r ext, CoreExecutor.execute_step sess lr (JObj d) tr = (Ok r, app tr ext) /\
    Forall (fun e => is_tool_event e = true) ext /\ length ext <= 1.
Proof.
  intros A. unfold CoreExecutor.execute_step.
  destruct (match dict_get_default d "tool" JNull with
            | JNull => true | JStr n => String.eqb n "null" | _ => false end).
  - eexists; exists []. rewrite app_nil_r. split; [reflexivity|split; [constructor|simpl; lia]].
  - rewrite A. unfold try_except, emit, bind, lift_res, ret.
    destruct (sess _ _); (eexists; exists [ETool (py_str (dict_get_default d "tool" JNull)) (CoreExecutor.inject lr a)]; split; [reflexivity|split; [repeat constructor|simpl; lia]]).
Qed.

(** A plan of mapping steps whose ["args"], when present, are mappings
    never makes [execute] raise, whatever the session does: it returns
    one result per step, and its only external calls are at most one
    tool call per step. *)
Theorem core_execute_total (sess : CoreExecutor.session) (plan : list json) (tr : list event) :
  Forall (fun s => exists d a, s = JObj d /\ dict_get_default d "args" (JObj []) = JObj a) plan ->
  exists results ext,
    CoreExecutor.execute sess plan tr = (Ok results, app tr ext) /\
    length results = length plan /\
    Forall (fun e => is_tool_event e = true) ext /\ length ext <= length plan.
Proof.
  unfold CoreExecutor.execute.
  assert (G : forall lr acc tr,
    Forall (fun s => exists d a, s = JObj d /\ dict_get_default d "args" (JObj []) = JObj a) plan ->
    exists results ext,
      CoreExecutor.execute_loop sess plan lr acc tr = (Ok results, app tr ext) /\
      length results = length acc + length plan /\
      Forall (fun e => is_tool_event e = true) ext /\ length ext <= length plan).
  { induction plan as [|s plan IH]; intros lr acc tr0 F; simpl.
    - exists acc, []. rewrite app_nil_r. split; [reflexivity|split; [lia|split; [constructor|simpl; lia]]].
    - inversion F as [|? ? (d & a & -> & A) F']; subst.
      destruct (core_step_ok sess lr d a tr0 A) as (r & ext1 & E & T1 & L1).
      unfold bind. rewrite E.
      destruct (IH r (app acc [r]) (app tr0 ext1) F') as (results & ext2 & E2 & L2 & T2 & L3).
      exists results, (app ext1 ext2). rewrite E2, app_assoc.
      split; [reflexivity|]. rewrite length_app in L2. simpl in L2.
      split; [lia|split; [apply Forall_app; split; assumption|rewrite length_app; lia]]. }
  intros F. destruct (G (JStr "") [] tr F) as (results & ext & E & L & T & L2).
  exists results, ext. simpl in L. auto.
Qed.

Lemma core_execute_total_witness :
  exists results ext,
    CoreExecutor.execute (fun _ _ => Raise (mk_exn "McpError" "down"))
      [JObj [("tool", JStr "search"); ("args", JObj [("q", JStr "x")])];
       JObj [("response", JStr "done")]] [] = (Ok results, app [] ext) /\
    length results = 2 /\ Forall (fun e => is_tool_event e = true) ext /\ length ext <= 2.
Proof.
  apply core_execute_total.
  repeat constructor; eexists; eexists; split; reflexivity.
Defined.

(** Steps without a tool (no ["tool"] key, [None] or "null") never reach
    the session: a plan of such steps returns, for each, its
    ["response"], else its ["description"], else "", and records no
    call. *)
Theorem core_execute_no_tool_plan (sess : CoreExecutor.session) (plan : list json) (tr : list event) :
  Forall (fun s => exists d, s = JObj d /\ core_no_tool (dict_get_default d "tool" JNull) = true) plan ->
  CoreExecutor.execute sess plan tr =
    (Ok (map (fun s => match s with
                       | JObj d => dict_get_default d "response" (dict_get_default d "description" (JStr ""))
                       | _ => JNull
                       end) plan), tr).
Proof.
  set (f := fun s => match s with
                     | JObj d => dict_get_default d "response" (dict_get_default d "description" (JStr ""))
                     | _ => JNull
                     end).
  assert (G : forall lr acc,
    Forall (fun s => exists d, s = JObj d /\ core_no_tool (dict_get_default d "tool" JNull) = true) plan ->
    CoreExecutor.execute_loop sess plan lr acc tr = (Ok (app acc (map f plan)), tr)).
  { induction plan as [|s plan IH]; intros lr acc F; simpl.
    - rewrite app_nil_r. reflexivity.
    - inversion F as [|? ? (d & -> & T) F']; subst.
      unfold bind, CoreExecutor.execute_step. unfold core_no_tool in T. rewrite T. unfold ret.
      rewrite IH by exact F'. rewrite <- app_assoc. reflexivity. }
  intros F. exact (G (JStr "") [] F).
Qed.

Lemma core_execute_no_tool_plan_witness :
  CoreExecutor.execute (fun _ _ => Ok [])
    [JObj [("tool", JStr "null"); ("description", JStr "greet")]; JObj [("response", JStr "hi")]] [] =
    (Ok [JStr "greet"; JStr "hi"], []).
Proof.
  apply core_execute_no_tool_plan.
  repeat constructor; eexists; split; reflexivity.
Defined.

(* ------------------------------------------------------------------ *)
(** ** backend/utils/llm_client.py *)

Lemma retry_loop_outcome (generate : nat -> string -> res string) (p : string) (k : nat) :
  forall a n tr, k < n ->
  (forall i, i < k -> exists e, generate (a + i) p = Raise e /\ LLMClient.is_rate_limit (exn_msg e) = true) ->
  match generate (a + k) p with Ok _ => True | Raise e => LLMClient.is_rate_limit (exn_msg e) = false end ->
  LLMClient.retry_loop generate p a n tr =
    (generate (a + k) p, app tr (app (retry_trace p a k) [EGenerate p (a + k)])).
Proof.
  induction k as [|k IH]; intros a n tr Hk R F; (destruct n as [|n]; [lia|]); simpl.
  - unfold try_except, emit, bind, lift_res. replace (a + 0) with a in * by lia.
    destruct (generate a p) as [v|e]; [reflexivity|]. rewrite F. reflexivity.
  - destruct (R 0 ltac:(lia)) as (e & G & L). rewrite Nat.add_0_r in G.
    unfold try_except, emit, bind, lift_res. rewrite G, L.
    assert (R' : forall i, i < k -> exists e, generate (S a + i) p = Raise e /\
                                   LLMClient.is_rate_limit (exn_msg e) = true).
    { intros i Hi. replace (S a + i) with (a + S i) by lia. apply R. lia. }
    replace (a + S k) with (S a + k) in * by lia.
    rewrite (IH (S a) n _ ltac:(lia) R' F).
    rewrite <- !app_assoc. reflexivity.
Qed.

(** [_chat_gemini] with [n] retries: after [k < n] rate-limited attempts
    (each followed by a wait of 45, 90, ... seconds), an attempt that
    succeeds or fails otherwise ends the loop: its answer is returned or
    its exception re-raised, and no later attempt is made. *)
Theorem chat_gemini_retry_outcome (generate : nat -> string -> res string)
  (messages : list (string * string)) (n k : nat) (tr : list event) :
  k < n ->
  (forall i, i < k -> exists e, generate i (LLMClient.full_prompt messages) = Raise e /\
                                LLMClient.is_rate_limit (exn_msg e) = true) ->
  match generate k (LLMClient.full_prompt messages) with
  | Ok _ => True
  | Raise e => LLMClient.is_rate_limit (exn_msg e) = false
  end ->
  LLMClient.chat_gemini generate messages n tr =
    (generate k (LLMClient.full_prompt messages),
     app tr (app (retry_trace (LLMClient.full_prompt messages) 0 k)
                 [EGenerate (LLMClient.full_prompt messages) k])).
Proof.
  intros Hk R F. unfold LLMClient.chat_gemini.
  exact (retry_loop_outcome generate _ k 0 n tr Hk R F).
Qed.

Lemma chat_gemini_retry_outcome_witness :
  LLMClient.chat_gemini (fun i _ => if Nat.eqb i 0 then Raise (mk_exn "ClientError" "429 quota")
                                    else Ok "answer") [("user", "hi")] 3 [] =
    (Ok "answer",
     app [] (app (retry_trace (LLMClient.full_prompt [("user", "hi")]) 0 1)
                 [EGenerate (LLMClient.full_prompt [("user", "hi")]) 1])).
Proof.
  apply (chat_gemini_retry_outcome
           (fun i _ => if Nat.eqb i 0 then Raise (mk_exn "ClientError" "429 quota") else Ok "answer")
           [("user", "hi")] 3 1 []).
  - lia.
  - intros i Hi. assert (i = 0) as -> by lia. eexists. split; reflexivity.
  - exact I.
Defined.

Lemma retry_loop_exhausted (generate : nat -> string -> res string) (p : string) (n : nat) :
  forall a tr,
  (forall i, i < n -> exists e, generate (a + i) p = Raise e /\ LLMClient.is_rate_limit (exn_msg e) = true) ->
  LLMClient.retry_loop generate p a n tr =
    (Raise (mk_exn "Exception" "Gemini API failed after retries"), app tr (retry_trace p a n)).
Proof.
  induction n as [|n IH]; intros a tr R; simpl.
  - rewrite app_nil_r. reflexivity.
  - destruct (R 0 ltac:(lia)) as (e & G & L). rewrite Nat.add_0_r in G.
    unfold try_except, emit, bind, lift_res. rewrite G, L.
    rewrite IH by (intros i Hi; replace (S a + i) with (a + S i) by lia; apply R; lia).
    rewrite <- !app_assoc. reflexivity.
Qed.

Lemma retry_trace_sleep (p : string) (n : nat) :
  forall a, 2 * total_sleep (retry_trace p a n) = 45 * n * (2 * a + n + 1).
Proof.
  induction n as [|n IH]; intros a; simpl; [lia|].
  specialize (IH (S a)). nia.
Qed.

(** When every one of the [n] attempts is rate-limited, [_chat_gemini]
    makes exactly [n] attempts, waits 45 * n * (n + 1) / 2 seconds in all,
    and raises "Gemini API failed after retries"; with [n = 0] it raises
    at once without calling the API. *)
Theorem chat_gemini_exhausted (generate : nat -> string -> res string)
  (messages : list (string * string)) (n : nat) (tr : list event) :
  (forall i, i < n -> exists e, generate i (LLMClient.full_prompt messages) = Raise e /\
                                LLMClient.is_rate_limit (exn_msg e) = true) ->
  LLMClient.chat_gemini generate messages n tr =
    (Raise (mk_exn "Exception" "Gemini API failed after retries"),
     app tr (retry_trace (LLMClient.full_prompt messages) 0 n)) /\
  length (filter (fun e => match e with EGenerate _ _ => true | _ => false end)
                 (retry_trace (LLMClient.full_prompt messages) 0 n)) = n /\
  2 * total_sleep (retry_trace (LLMClient.full_prompt messages) 0 n) = 45 * n * (n + 1).
Proof.
  intros R. split; [|split].
  - unfold LLMClient.chat_gemini. exact (retry_loop_exhausted generate _ n 0 tr R).
  - generalize 0. induction n as [|n IH]; intros a; simpl; [reflexivity|].
    rewrite IH by (intros i Hi; apply R; lia). reflexivity.
  - rewrite retry_trace_sleep. lia.
Qed.

Lemma chat_gemini_exhausted_witness :
  LLMClient.chat_gemini always_429 [("user", "hi")] 5 [] =
    (Raise (mk_exn "Exception" "Gemini API failed after retries"),
     app [] (retry_trace (LLMClient.full_prompt [("user", "hi")]) 0 5)) /\
  length (filter (fun e => match e with EGenerate _ _ => true | _ => false end)
                 (retry_trace (LLMClient.full_prompt [("user", "hi")]) 0 5)) = 5 /\
  2 * total_sleep (retry_trace (LLMClient.full_prompt [("user", "hi")]) 0 5) = 45 * 5 * (5 + 1).
Proof.
  apply chat_gemini_exhausted.
  intros i Hi. eexists. split; reflexivity.
Defined.

Lemma run_ops_decided (probe : Client.probe_oracle)
  (local : list (string * string) -> string -> res string)
  (generate : nat -> string -> res string) (c : Client.llm_client) (k : nat) (ops : list Client.op) :
  (Client.prefer_local c = false \/ Client.local_available c <> None) ->
  Client.run_ops probe local generate (c, k) ops =
    (map (client_decided local generate
            (Client.prefer_local c &&
             match Client.local_available c with Some b => b | None => false end)) ops, (c, k)).
Proof.
  intros H. induction ops as [|o r IH]; [reflexivity|].
  destruct c as [pl la].
  assert (U : Client.use_local probe (Client.mk_client pl la, k) =
              (pl && match la with Some b => b | None => false end, (Client.mk_client pl la, k))).
  { unfold Client.use_local, Client.check_local. simpl in H |- *.
    destruct pl; [|reflexivity].
    destruct la as [b|]; [reflexivity|]. destruct H as [H|H]; [discriminate H|congruence]. }
  destruct o as [|m t]; simpl; unfold Client.mode, Client.chat; rewrite U; simpl in IH |- *;
    rewrite IH; reflexivity.
Qed.

(** A fresh [LLMClient] probes the local server at most once, on its first
    use: every later [mode] read or [chat] call reuses the cached answer,
    so all of them agree on the backend, local when [prefer_local] is set
    and the probe answered 200. *)
Theorem client_probes_once (probe : Client.probe_oracle)
  (local : list (string * string) -> string -> res string)
  (generate : nat -> string -> res string) (p : bool) (k : nat) (ops : list Client.op) :
  let b := p && match probe k with Ok code => Nat.eqb code 200 | Raise _ => false end in
  fst (Client.run_ops probe local generate (Client.fresh p, k) ops) =
    map (client_decided local generate b) ops /\
  snd (snd (Client.run_ops probe local generate (Client.fresh p, k) ops)) =
    match ops with [] => k | _ :: _ => if p then S k else k end.
Proof.
  intros b. subst b. destruct ops as [|o r]; [split; reflexivity|].
  destruct p.
  - set (b := match probe k with Ok code => Nat.eqb code 200 | Raise _ => false end).
    assert (U : Client.use_local probe (Client.fresh true, k) = (b, (Client.mk_client true (Some b), S k))).
    { unfold Client.use_local. cbn [fst Client.prefer_local Client.fresh].
      unfold Client.check_local. cbn [Client.local_available Client.fresh]. reflexivity. }
    assert (N : Client.local_available (Client.mk_client true (Some b)) <> None) by discriminate.
    assert (D := run_ops_decided probe local generate (Client.mk_client true (Some b)) (S k) r
                   (or_intror N)).
    change (Client.prefer_local (Client.mk_client true (Some b)) &&
            match Client.local_available (Client.mk_client true (Some b)) with
            | Some b0 => b0 | None => false end) with (true && b) in D.
    destruct o as [|m t]; cbn [Client.run_ops]; unfold Client.mode, Client.chat;
      rewrite U, D; split; reflexivity.
  - assert (D := run_ops_decided probe local generate (Client.fresh false) k (o :: r) (or_introl eq_refl)).
    rewrite D. split; reflexivity.
Qed.

(** [get_client] creates the singleton on its first call only: every call
    returns that same client, built with the first call's [prefer_local];
    later arguments are ignored. *)
Theorem get_client_singleton (p : bool) (ps : list bool) (c : Client.llm_client) :
  Client.get_clients (p :: ps) None = repeat (Client.fresh p) (S (length ps)) /\
  Client.get_clients ps (Some c) = repeat c (length ps).
Proof.
  assert (G : forall ps, Client.get_clients ps (Some c) = repeat c (length ps)).
  { induction ps0 as [|q r IH]; [reflexivity|]. simpl. rewrite IH. reflexivity. }
  split; [|apply G].
  simpl. f_equal.
  clear G. induction ps as [|q r IH]; [reflexivity|]. simpl. rewrite IH. reflexivity.
Qed.

(* ------------------------------------------------------------------ *)
(** ** backend/main.py: [handle_command] *)








